(** * integrity.go: change detection and diff reports

    A shallow embedding of the drift monitor of [integrity.go]: the
    fingerprint ([sha256Hex], [fileHash]), the three differs
    ([generateCSVDiff], [generatePDFDiff], [generateTextDiff]), the media
    reconciler ([generateImageDiff]) and the driver loop ([runCycle]).

    Go strings are byte sequences: they are modelled by [string], one
    [ascii] per byte, so that [len] is [String.length] and a slice is
    [substring].  A [strings.Builder] is the list of the chunks written to
    it, in order; [String()] concatenates them. *)

From Stdlib Require Import String Ascii List ZArith Lia Bool Arith PeanoNat.
From Stdlib Require Import DecimalString.
Import ListNotations.

Local Open Scope string_scope.
Local Open Scope list_scope.

(** ** Constants of the source *)

Definition baseURL : string :=
  "https://raw.githubusercontent.com/dream-three/baseline/refs/heads/main/".
Definition logFile : string := "shifts.log".
Definition maxDiffChanges : nat := 10.
Definition maxDiffChars : nat := 500.
Definition zeroHash : string :=
  "0000000000000000000000000000000000000000000000000000000000000000".
Definition imageExts : list string := [".jpg"; ".jpeg"; ".png"; ".avif"].

(** ** Values with an [error] beside them *)

(** A Go pair [(v, err)]: either the value, or the error with its [%v]
    text. *)
Inductive result (A : Type) : Type :=
| Ok (a : A)
| Err (msg : string).
Arguments Ok {A} a.
Arguments Err {A} msg.

(** ** The pieces of [strings], [strconv] and [fmt] that the source calls *)

Module GoStrings.

Definition LF : ascii := "010"%char.
Definition nl : string := String LF EmptyString.

(** [strconv.Itoa] on a non-negative number, which is also [%d]. *)
Definition Itoa (n : nat) : string := NilZero.string_of_uint (Nat.to_uint n).

(** [strings.Join]. *)
Definition Join (elems : list string) (sep : string) : string :=
  String.concat sep elems.

(** [strings.Split] on a one-byte separator: [k] separators give [k+1]
    pieces, and the empty string gives one empty piece. *)
Fixpoint Split (s : string) (sep : ascii) : list string :=
  match s with
  | EmptyString => [EmptyString]
  | String c s' =>
      if Ascii.eqb c sep then EmptyString :: Split s' sep
      else match Split s' sep with
           | piece :: rest => String c piece :: rest
           | [] => [String c EmptyString]
           end
  end.

(** [strings.HasPrefix]. *)
Fixpoint HasPrefix (s p : string) {struct p} : bool :=
  match p, s with
  | EmptyString, _ => true
  | String _ _, EmptyString => false
  | String b p', String a s' => Ascii.eqb a b && HasPrefix s' p'
  end.

(** [strings.HasSuffix]. *)
Definition HasSuffix (s p : string) : bool :=
  Nat.leb (String.length p) (String.length s) &&
  String.eqb (substring (String.length s - String.length p) (String.length p) s) p.

(** [strings.Contains]. *)
Fixpoint Contains (s sub : string) : bool :=
  HasPrefix s sub ||
  match s with
  | EmptyString => false
  | String _ s' => Contains s' sub
  end.

Fixpoint rev_acc (s acc : string) : string :=
  match s with
  | EmptyString => acc
  | String c s' => rev_acc s' (String c acc)
  end.
Definition rev (s : string) : string := rev_acc s EmptyString.

Definition bytes (codes : list nat) : string :=
  string_of_list_ascii (map ascii_of_nat codes).

(** The UTF-8 encodings of the runes for which [unicode.IsSpace] holds:
    tab, LF, VT, FF, CR, space, U+0085, U+00A0, U+1680, U+2000 to U+200A,
    U+2028, U+2029, U+202F, U+205F and U+3000. *)
Definition spaceRunes : list string :=
  map bytes
    [ [9]; [10]; [11]; [12]; [13]; [32];
      [194; 133]; [194; 160];
      [225; 154; 128];
      [226; 128; 128]; [226; 128; 129]; [226; 128; 130]; [226; 128; 131];
      [226; 128; 132]; [226; 128; 133]; [226; 128; 134]; [226; 128; 135];
      [226; 128; 136]; [226; 128; 137]; [226; 128; 138];
      [226; 128; 168]; [226; 128; 169]; [226; 128; 175];
      [226; 129; 159];
      [227; 128; 128] ].

(** The rest of [s] after its first rune when that rune is white space. *)
Fixpoint dropSpaceRune (runes : list string) (s : string) : option string :=
  match runes with
  | [] => None
  | r :: runes' =>
      if HasPrefix s r
      then Some (substring (String.length r) (String.length s - String.length r) s)
      else dropSpaceRune runes' s
  end.

(** [strings.TrimLeftFunc(s, unicode.IsSpace)]; every rune is at least one
    byte, so [String.length s] steps are enough. *)
Fixpoint trimLeftFuel (runes : list string) (fuel : nat) (s : string) : string :=
  match fuel with
  | O => s
  | S fuel' =>
      match dropSpaceRune runes s with
      | Some s' => trimLeftFuel runes fuel' s'
      | None => s
      end
  end.

Definition TrimLeftSpace (s : string) : string :=
  trimLeftFuel spaceRunes (String.length s) s.

(** [strings.TrimRightFunc(s, unicode.IsSpace)]: the last rune is white
    space exactly when [s] ends with one of the encodings. *)
Definition TrimRightSpace (s : string) : string :=
  rev (trimLeftFuel (map rev spaceRunes) (String.length s) (rev s)).

(** [strings.TrimSpace]. *)
Definition TrimSpace (s : string) : string := TrimRightSpace (TrimLeftSpace s).

End GoStrings.
Import GoStrings.

(** ** [crypto/sha256] and [encoding/hex] *)

(** SHA-256 as the source gets it from [sha256.New], [Write] and [Sum]: words
    are 32-bit integers in [Z], every sum reduced modulo [2^32]. *)
Module SHA256.
Local Open Scope Z_scope.

Definition wrap (x : Z) : Z := x mod 2 ^ 32.
Definition add (x y : Z) : Z := wrap (x + y).
Definition rotr (n x : Z) : Z :=
  Z.lor (Z.shiftr x n) (wrap (Z.shiftl x (32 - n))).
Definition not32 (x : Z) : Z := Z.lxor x 0xffffffff.

Definition Ch (x y z : Z) : Z := Z.lxor (Z.land x y) (Z.land (not32 x) z).
Definition Maj (x y z : Z) : Z :=
  Z.lxor (Z.lxor (Z.land x y) (Z.land x z)) (Z.land y z).
Definition Sigma0 (x : Z) : Z := Z.lxor (Z.lxor (rotr 2 x) (rotr 13 x)) (rotr 22 x).
Definition Sigma1 (x : Z) : Z := Z.lxor (Z.lxor (rotr 6 x) (rotr 11 x)) (rotr 25 x).
Definition sigma0 (x : Z) : Z := Z.lxor (Z.lxor (rotr 7 x) (rotr 18 x)) (Z.shiftr x 3).
Definition sigma1 (x : Z) : Z := Z.lxor (Z.lxor (rotr 17 x) (rotr 19 x)) (Z.shiftr x 10).

(** A word written as hexadecimal digits. *)
Definition hexValue (c : ascii) : Z :=
  let n := Z.of_nat (nat_of_ascii c) in
  if (n <? 58) then n - 48 else n - 87.

Definition wordOfHex (s : string) : Z :=
  fold_left (fun acc c => acc * 16 + hexValue c) (list_ascii_of_string s) 0.

(** The round constants and the initial hash value of FIPS 180-4. *)
Definition K : list Z :=
  map wordOfHex
  [ "428a2f98"; "71374491"; "b5c0fbcf"; "e9b5dba5"; "3956c25b"; "59f111f1";
    "923f82a4"; "ab1c5ed5"; "d807aa98"; "12835b01"; "243185be"; "550c7dc3";
    "72be5d74"; "80deb1fe"; "9bdc06a7"; "c19bf174"; "e49b69c1"; "efbe4786";
    "0fc19dc6"; "240ca1cc"; "2de92c6f"; "4a7484aa"; "5cb0a9dc"; "76f988da";
    "983e5152"; "a831c66d"; "b00327c8"; "bf597fc7"; "c6e00bf3"; "d5a79147";
    "06ca6351"; "14292967"; "27b70a85"; "2e1b2138"; "4d2c6dfc"; "53380d13";
    "650a7354"; "766a0abb"; "81c2c92e"; "92722c85"; "a2bfe8a1"; "a81a664b";
    "c24b8b70"; "c76c51a3"; "d192e819"; "d6990624"; "f40e3585"; "106aa070";
    "19a4c116"; "1e376c08"; "2748774c"; "34b0bcb5"; "391c0cb3"; "4ed8aa4a";
    "5b9cca4f"; "682e6ff3"; "748f82ee"; "78a5636f"; "84c87814"; "8cc70208";
    "90befffa"; "a4506ceb"; "bef9a3f7"; "c67178f2" ].

Definition init : list Z :=
  map wordOfHex
  [ "6a09e667"; "bb67ae85"; "3c6ef372"; "a54ff53a";
    "510e527f"; "9b05688c"; "1f83d9ab"; "5be0cd19" ].

(** The message with its padding: the byte [0x80], zero bytes up to 56
    modulo 64, then the length in bits as 8 big-endian bytes. *)
Definition bytesOf (s : string) : list Z :=
  map (fun c => Z.of_nat (nat_of_ascii c)) (list_ascii_of_string s).

Definition beBytes (width : nat) (x : Z) : list Z :=
  map (fun i => Z.land (Z.shiftr x (8 * Z.of_nat i)) 0xff) (List.rev (seq 0 width)).

Definition pad (msg : list Z) : list Z :=
  let len := Z.of_nat (List.length msg) in
  let zeros := Z.to_nat ((55 - len) mod 64) in
  msg ++ [0x80] ++ repeat 0 zeros ++ beBytes 8 (8 * len).

(** Big-endian words of a byte sequence whose length is a multiple of 4. *)
Fixpoint words (fuel : nat) (bs : list Z) : list Z :=
  match fuel, bs with
  | S fuel', b0 :: b1 :: b2 :: b3 :: bs' =>
      (b0 * 2 ^ 24 + b1 * 2 ^ 16 + b2 * 2 ^ 8 + b3) :: words fuel' bs'
  | _, _ => []
  end.

(** The message schedule, newest word first: [W t] is computed from the
    words 2, 7, 15 and 16 places back. *)
Fixpoint schedule (n : nat) (back : list Z) : list Z :=
  match n with
  | O => back
  | S n' =>
      let wt := add (add (sigma1 (nth 1 back 0)) (nth 6 back 0))
                    (add (sigma0 (nth 14 back 0)) (nth 15 back 0)) in
      schedule n' (wt :: back)
  end.

Definition round (st : list Z) (kw : Z * Z) : list Z :=
  match st with
  | [a; b; c; d; e; f; g; h] =>
      let t1 := add (add (add h (Sigma1 e)) (add (Ch e f g) (fst kw))) (snd kw) in
      let t2 := add (Sigma0 a) (Maj a b c) in
      [add t1 t2; a; b; c; add d t1; e; f; g]
  | _ => st
  end.

Definition block (H : list Z) (m : list Z) : list Z :=
  let W := List.rev (schedule 48 (List.rev m)) in
  map (fun p => add (fst p) (snd p))
      (combine H (fold_left round (combine K W) H)).

Fixpoint blocks (fuel : nat) (H : list Z) (ws : list Z) : list Z :=
  match fuel, ws with
  | S fuel', _ :: _ => blocks fuel' (block H (firstn 16 ws)) (skipn 16 ws)
  | _, _ => H
  end.

(** [h.Sum(nil)] after [h.Write(b)], as eight 32-bit words. *)
Definition sum (s : string) : list Z :=
  let padded := pad (bytesOf s) in
  let ws := words (List.length padded) padded in
  blocks (List.length ws) init ws.

Definition hexDigit (d : Z) : ascii :=
  nth (Z.to_nat d) (list_ascii_of_string "0123456789abcdef") "0"%char.

(** [hex.EncodeToString] of the 32 digest bytes. *)
Definition hexOfWord (x : Z) : string :=
  string_of_list_ascii
    (map (fun i => hexDigit (Z.land (Z.shiftr x (4 * Z.of_nat i)) 0xf))
         (List.rev (seq 0 8))).

Definition hex (H : list Z) : string := String.concat EmptyString (map hexOfWord H).

End SHA256.

(** [sha256Hex]: the fingerprint of a byte sequence. *)
Definition sha256Hex (b : string) : string := SHA256.hex (SHA256.sum b).

(** ** Builders and the change counters *)

Definition Builder : Type := list string.

Definition WriteString (b : Builder) (s : string) : Builder := b ++ [s].

(** [b.String()]. *)
Definition BuilderString (b : Builder) : string := String.concat EmptyString b.

(** [addedCount], [omittedCount], [modifiedCount] and [diff] of a differ. *)
Record DiffState : Type := mkDiffState {
  addedCount : nat;
  omittedCount : nat;
  modifiedCount : nat;
  diff : Builder
}.

Definition tally (st : DiffState) : nat :=
  addedCount st + omittedCount st + modifiedCount st.

Definition recordAdded (st : DiffState) (line : string) : DiffState :=
  mkDiffState (addedCount st + 1) (omittedCount st) (modifiedCount st)
              (WriteString (diff st) line).

Definition recordOmitted (st : DiffState) (line : string) : DiffState :=
  mkDiffState (addedCount st) (omittedCount st + 1) (modifiedCount st)
              (WriteString (diff st) line).

Definition recordModified (st : DiffState) (line : string) : DiffState :=
  mkDiffState (addedCount st) (omittedCount st) (modifiedCount st + 1)
              (WriteString (diff st) line).

(** The arrow of the Modified lines, U+2192 in UTF-8. *)
Definition arrow : string := bytes [226; 134; 146].

(** ** RowDiffer: the loop of [generateCSVDiff] *)

Definition Row : Type := list string.
Definition Table : Type := list Row.

Definition addedRowLine (i : nat) (remoteRow : Row) : string :=
  "Added row " ++ Itoa (i + 1) ++ ": " ++ Join remoteRow "," ++ nl.

Definition omittedRowLine (i : nat) (localRow : Row) : string :=
  "Omitted row " ++ Itoa (i + 1) ++ ": " ++ Join localRow "," ++ nl.

Definition modifiedFieldLine (i j : nat) (localField remoteField : string) : string :=
  "Modified field in row " ++ Itoa (i + 1) ++ ", col " ++ Itoa (j + 1) ++ ": '"
    ++ localField ++ "' " ++ arrow ++ " '" ++ remoteField ++ "'" ++ nl.

(** [localRow[j]] when [j < len(localRow)], the empty string otherwise. *)
Definition fieldAt (row : Row) (j : nat) : string := nth j row EmptyString.

(** [localCSV[i]] when [i < len(localCSV)], [[]string{}] otherwise. *)
Definition rowAt (t : Table) (i : nat) : Row := nth i t [].

(** The loop over [j], with [n] columns left to visit; it breaks at the first
    field that differs. *)
Fixpoint compareFields (i : nat) (localRow remoteRow : Row) (n j : nat)
    (st : DiffState) : DiffState :=
  match n with
  | O => st
  | S n' =>
      let localField := fieldAt localRow j in
      let remoteField := fieldAt remoteRow j in
      if negb (String.eqb localField remoteField)
      then recordModified st (modifiedFieldLine i j localField remoteField)
      else compareFields i localRow remoteRow n' (S j) st
  end.

(** The body of the loop over [i]. *)
Definition csvRow (localCSV remoteCSV : Table) (i : nat) (st : DiffState) : DiffState :=
  let localRow := rowAt localCSV i in
  let remoteRow := rowAt remoteCSV i in
  if Nat.eqb (List.length localRow) 0 then
    recordAdded st (addedRowLine i remoteRow)
  else if Nat.eqb (List.length remoteRow) 0 then
    recordOmitted st (omittedRowLine i localRow)
  else
    compareFields i localRow remoteRow
      (Nat.max (List.length localRow) (List.length remoteRow)) 0 st.

(** [for i := 0; i < maxRows && added+omitted+modified < maxChanges; i++],
    with [n = maxRows - i] rows left. *)
Fixpoint csvRows (localCSV remoteCSV : Table) (n i : nat) (st : DiffState) : DiffState :=
  match n with
  | O => st
  | S n' =>
      if Nat.ltb (tally st) maxDiffChanges
      then csvRows localCSV remoteCSV n' (S i) (csvRow localCSV remoteCSV i st)
      else st
  end.

Definition csvHeader (ts filename : string) : string :=
  "[" ++ ts ++ "] Diff for " ++ filename ++ nl.

Definition csvFallback : string :=
  "No specific changes identified (full content mismatch)" ++ nl.

(** The state on leaving the loop of [generateCSVDiff], started on the header. *)
Definition csvLoop (ts filename : string) (localCSV remoteCSV : Table) : DiffState :=
  csvRows localCSV remoteCSV
    (Nat.max (List.length localCSV) (List.length remoteCSV)) 0
    (mkDiffState 0 0 0 (WriteString [] (csvHeader ts filename))).

(** The builder of [generateCSVDiff] at its [return], once both tables are
    parsed. *)
Definition csvDiffBuilder (ts filename : string) (localCSV remoteCSV : Table) : Builder :=
  let st := csvLoop ts filename localCSV remoteCSV in
  if Nat.eqb (tally st) 0 then WriteString (diff st) csvFallback else diff st.

(** ** LineDiffer: [generateTextDiff] *)

Definition addedLine (section : string) (i : nat) (remoteLine : string) : string :=
  "Added " ++ section ++ " line " ++ Itoa (i + 1) ++ ": " ++ remoteLine ++ nl.

Definition omittedLine (section : string) (i : nat) (localLine : string) : string :=
  "Omitted " ++ section ++ " line " ++ Itoa (i + 1) ++ ": " ++ localLine ++ nl.

Definition modifiedLine (section : string) (i : nat) (localLine remoteLine : string) : string :=
  "Modified " ++ section ++ " line " ++ Itoa (i + 1) ++ ": '" ++ localLine ++ "' "
    ++ arrow ++ " '" ++ remoteLine ++ "'" ++ nl.

(** [strings.TrimSpace(lines[i])] when [i < len(lines)], the empty string
    otherwise. *)
Definition lineAt (lines : list string) (i : nat) : string :=
  if Nat.ltb i (List.length lines) then TrimSpace (nth i lines EmptyString)
  else EmptyString.

(** The body of the loop over [i]. *)
Definition textLine (section : string) (localLines remoteLines : list string)
    (i : nat) (st : DiffState) : DiffState :=
  let localLine := lineAt localLines i in
  let remoteLine := lineAt remoteLines i in
  if String.eqb localLine EmptyString && negb (String.eqb remoteLine EmptyString) then
    recordAdded st (addedLine section i remoteLine)
  else if String.eqb remoteLine EmptyString && negb (String.eqb localLine EmptyString) then
    recordOmitted st (omittedLine section i localLine)
  else if negb (String.eqb localLine remoteLine) then
    recordModified st (modifiedLine section i localLine remoteLine)
  else st.

Fixpoint textLines (section : string) (localLines remoteLines : list string)
    (n i : nat) (st : DiffState) : DiffState :=
  match n with
  | O => st
  | S n' =>
      if Nat.ltb (tally st) maxDiffChanges
      then textLines section localLines remoteLines n' (S i)
             (textLine section localLines remoteLines i st)
      else st
  end.

Definition textFallback (section : string) : string :=
  "No " ++ section ++ " changes identified" ++ nl.

Definition textLoop (localText remoteText section : string) : DiffState :=
  let localLines := Split localText LF in
  let remoteLines := Split remoteText LF in
  textLines section localLines remoteLines
    (Nat.max (List.length localLines) (List.length remoteLines)) 0
    (mkDiffState 0 0 0 []).

(** The builder of [generateTextDiff] at its [return]. *)
Definition textDiffBuilder (localText remoteText section : string) : Builder :=
  let st := textLoop localText remoteText section in
  if Nat.eqb (tally st) 0 then WriteString (diff st) (textFallback section) else diff st.

Definition generateTextDiff (localText remoteText section : string) : string :=
  BuilderString (textDiffBuilder localText remoteText section).

(** ** The collaborators *)

(** An HTTP response: its status code and what [io.ReadAll] makes of its
    body. *)
Record Response : Type := mkResponse {
  StatusCode : nat;
  Body : result string
}.

Definition StatusOK : nat := 200.

(** What [extractImageData] and [extractImageDataFromBytes] return: two
    texts and two errors, [None] for [nil]. *)
Record ImageData : Type := mkImageData {
  exifData : string;
  ocrText : string;
  exifErr : option string;
  ocrErr : option string
}.

(** What writing the remote bytes to a temporary file and opening it
    again comes to. *)
Inductive TempFile : Type :=
| WriteFailed (msg : string)
| OpenFailed (msg : string)
| Opened.

(** Everything the program reads from outside itself during one cycle: the
    directory, the local files, the network, the clock and the random
    source behind [randomTimestamp], and the libraries whose code is not
    part of the program. *)
Record World : Type := mkWorld {
  (** [os.Open(dir)] and [Readdirnames(-1)]. *)
  Readdirnames : string -> result (list string);
  (** [os.Open(path)] and the reading of the file. *)
  readFile : string -> result string;
  (** [strings.ToLower]. *)
  ToLower : string -> string;
  (** [url.PathEscape]. *)
  PathEscape : string -> string;
  (** [randomTimestamp()] at the request of item [i]. *)
  randomTimestamp : nat -> string;
  (** The error of [http.NewRequest], [None] for [nil]. *)
  NewRequest : string -> option string;
  (** [client.Do(req)]. *)
  Do : string -> result Response;
  (** [csv.NewReader(r).ReadAll()] on the bytes read. *)
  ReadAll : string -> result Table;
  (** [exifpkg.Decode] and the walk over the tags, on the bytes of a file. *)
  DecodeExif : string -> result string;
  (** [client.Text()] of gosseract, on the bytes of the image set. *)
  Text : string -> result string;
  (** [os.WriteFile] then [os.Open] of the temporary file of a remote
      image, by file name. *)
  tempFile : string -> TempFile
}.

(** The value of a Go pair: the zero value beside a non-nil error. *)
Definition valueOf (r : result string) : string :=
  match r with Ok v => v | Err _ => EmptyString end.

Definition errorOf {A : Type} (r : result A) : option string :=
  match r with Ok _ => None | Err e => Some e end.

(** ** Paths *)

Definition isDot (c : ascii) : bool := Ascii.eqb c "."%char.
Definition isPathSeparator (c : ascii) : bool := Ascii.eqb c "/"%char.

Fixpoint hasDotOrSeparator (s : string) : bool :=
  match s with
  | EmptyString => false
  | String c s' => isDot c || isPathSeparator c || hasDotOrSeparator s'
  end.

(** [filepath.Ext]: scanning from the end, the suffix that starts at the
    first dot met before any separator. *)
Fixpoint Ext (path : string) : string :=
  match path with
  | EmptyString => EmptyString
  | String c rest =>
      if hasDotOrSeparator rest then Ext rest
      else if isDot c then path else EmptyString
  end.

Fixpoint hasSeparator (s : string) : bool :=
  match s with
  | EmptyString => false
  | String c s' => isPathSeparator c || hasSeparator s'
  end.

(** [filepath.Base] of a path that does not end in a separator. *)
Fixpoint Base (path : string) : string :=
  match path with
  | EmptyString => "."
  | String c rest => if hasSeparator rest then Base rest
                     else if isPathSeparator c then rest else path
  end.

(** [filepath.Join] of a clean directory and a file name. *)
Definition filepathJoin (dir name : string) : string :=
  if HasSuffix dir "/" then dir ++ name else dir ++ "/" ++ name.

(** [sort.Strings]: Go orders strings byte by byte, as [String.leb] does. *)
Fixpoint insertSorted (x : string) (l : list string) : list string :=
  match l with
  | [] => [x]
  | y :: l' => if String.leb x y then x :: l else y :: insertSorted x l'
  end.

Definition sortStrings (l : list string) : list string :=
  fold_right insertSorted [] l.

(** ** The program over a world *)

Section Program.

Variable w : World.

(** [fileHash]. *)
Definition fileHash (localPath : string) : result string :=
  match readFile w localPath with
  | Err e => Err e
  | Ok data => Ok (sha256Hex data)
  end.

(** [parseCSV] and [parseCSVFromBytes]. *)
Definition parseCSV (path : string) : result Table :=
  match readFile w path with
  | Err e => Err e
  | Ok data => ReadAll w data
  end.

Definition parseCSVFromBytes (data : string) : result Table := ReadAll w data.

(** [generateCSVDiff]. *)
Definition generateCSVDiff (localPath remoteData ts filename : string) : string :=
  match parseCSV localPath with
  | Err e => "[" ++ ts ++ "] CSV: " ++ filename ++ " | Error parsing local: " ++ e
  | Ok localCSV =>
      match parseCSVFromBytes remoteData with
      | Err e => "[" ++ ts ++ "] CSV: " ++ filename ++ " | Error parsing remote: " ++ e
      | Ok remoteCSV => BuilderString (csvDiffBuilder ts filename localCSV remoteCSV)
      end
  end.

Definition hashLine (localHash remoteHash : string) : string :=
  "File Hash: Local=" ++ localHash ++ ", Remote=" ++ remoteHash ++ nl.

(** [generatePDFDiff]: one [Sprintf] of two lines. *)
Definition generatePDFDiff (localPath remoteData ts filename : string) : string :=
  let localHash := valueOf (fileHash localPath) in
  let remoteHash := sha256Hex remoteData in
  "[" ++ ts ++ "] PDF Diff for " ++ filename ++ nl ++ hashLine localHash remoteHash.

(** One channel of [generateImageDiff], as the chunks it writes.  The
    source spells the block out twice, with [name] and [title] both
    [EXIF] for the metadata and [OCR] and [OCR Text] for the recognised
    text. *)
Definition reconcile (name title localValue remoteValue : string)
    (localErr remoteErr : option string) : Builder :=
  let b0 : Builder := [] in
  let b1 := match localErr with
            | Some e => WriteString b0 ("Local " ++ name ++ " Error: " ++ e ++ nl)
            | None => b0
            end in
  let b2 := match remoteErr with
            | Some e => WriteString b1 ("Remote " ++ name ++ " Error: " ++ e ++ nl)
            | None => b1
            end in
  match localErr, remoteErr with
  | None, None =>
      if negb (String.eqb localValue remoteValue) then
        WriteString (WriteString b2 (title ++ " Changed:" ++ nl))
                    (generateTextDiff localValue remoteValue name)
      else WriteString b2 (title ++ " Unchanged" ++ nl)
  | None, Some _ =>
      WriteString b2 (name ++ ": Local present, remote extraction failed" ++ nl
                      ++ "Local " ++ title ++ ":" ++ nl ++ localValue ++ nl)
  | Some _, None =>
      WriteString b2 (name ++ ": Remote added, local extraction failed" ++ nl
                      ++ "Remote " ++ title ++ ":" ++ nl ++ remoteValue ++ nl)
  | Some _, Some _ => b2
  end.

Definition imageDiffBuilder (localPath remoteData : string)
    (localExif remoteExif localOcr remoteOcr : string)
    (localExifErr remoteExifErr localOcrErr remoteOcrErr : option string)
    (ts filename : string) : Builder :=
  let b0 := WriteString [] ("[" ++ ts ++ "] Image Diff for " ++ filename ++ nl) in
  let localHash := valueOf (fileHash localPath) in
  let remoteHash := sha256Hex remoteData in
  let b1 := WriteString b0 (hashLine localHash remoteHash) in
  b1 ++ reconcile "EXIF" "EXIF" localExif remoteExif localExifErr remoteExifErr
     ++ reconcile "OCR" "OCR Text" localOcr remoteOcr localOcrErr remoteOcrErr.

(** [generateImageDiff]. *)
Definition generateImageDiff (localPath remoteData : string)
    (localExif remoteExif localOcr remoteOcr : string)
    (localExifErr remoteExifErr localOcrErr remoteOcrErr : option string)
    (ts filename : string) : string :=
  BuilderString
    (imageDiffBuilder localPath remoteData localExif remoteExif localOcr remoteOcr
       localExifErr remoteExifErr localOcrErr remoteOcrErr ts filename).

Definition avifError : string := "AVIF format not supported for OCR".

(** [extractExif] on an open file. *)
Definition extractExif (data : string) : string * option string :=
  let r := DecodeExif w data in (valueOf r, errorOf r).

(** The tail shared by the two extractors once the file is open. *)
Definition extractOpened (ext data : string) : ImageData :=
  let (exif, eErr) := extractExif data in
  if String.eqb ext ".avif" then mkImageData exif EmptyString eErr (Some avifError)
  else let r := Text w data in mkImageData exif (valueOf r) eErr (errorOf r).

(** [extractImageData]. *)
Definition extractImageData (localPath : string) : ImageData :=
  let ext := ToLower w (Ext localPath) in
  match readFile w localPath with
  | Err e => mkImageData EmptyString EmptyString (Some e) None
  | Ok data => extractOpened ext data
  end.

(** [extractImageDataFromBytes]. *)
Definition extractImageDataFromBytes (data filename : string) : ImageData :=
  let ext := ToLower w (Ext filename) in
  match tempFile w filename with
  | WriteFailed e => mkImageData EmptyString EmptyString (Some e) (Some e)
  | OpenFailed e => mkImageData EmptyString EmptyString (Some e) None
  | Opened => extractOpened ext data
  end.

End Program.

(** ** The driver: [runCycle] *)

(** [unifiedBuilder] and [shiftLog] of one cycle.  Console messages, the
    pause between fetches and the [.changed] snapshots touch neither and
    are left out. *)
Record Cycle : Type := mkCycle {
  unifiedBuilder : Builder;
  shiftLog : list string
}.

(** How the body of the item loop is left: by a [continue], or by reaching
    its last statement; either way with the value [rawHash] holds then. *)
Inductive Flow : Type :=
| Continue (rawHash : string) (c : Cycle)
| Through (rawHash : string) (c : Cycle).

Definition truncationMarker : string := "... (truncated)".

(** Lines 303 to 305: the cut made before a diff joins [shiftLog]. *)
Definition truncateDiff (diffText : string) : string :=
  if Nat.ltb maxDiffChars (String.length diffText)
  then substring 0 maxDiffChars diffText ++ truncationMarker
  else diffText.

Definition unavailableReport (ts originalFilename : string) (status : nat)
    (rawURL : string) : string :=
  "[" ++ ts ++ "] " ++ originalFilename ++ ": Remote unavailable (HTTP " ++ Itoa status
    ++ ") - potential deletion or rename (URL: " ++ rawURL ++ ")" ++ nl.

(** The three lists of the directory scan. *)
Record Scan : Type := mkScan {
  csvFiles : list string;
  pdfFiles : list string;
  imageFiles : list string
}.

Section Driver.

Variable w : World.

(** The loop over [imageExts] with its [break]. *)
Definition isMapImage (filename ext : string) : bool :=
  existsb (fun imgExt => String.eqb ext imgExt && Contains (ToLower w filename) "map")
          imageExts.

Definition scanName (runningDir : string) (sc : Scan) (filename : string) : Scan :=
  let ext := ToLower w (Ext filename) in
  if String.eqb ext ".csv" then
    mkScan (csvFiles sc ++ [filepathJoin runningDir filename]) (pdfFiles sc) (imageFiles sc)
  else if String.eqb ext ".pdf" then
    mkScan (csvFiles sc) (pdfFiles sc ++ [filepathJoin runningDir filename]) (imageFiles sc)
  else if isMapImage filename ext then
    mkScan (csvFiles sc) (pdfFiles sc) (imageFiles sc ++ [filepathJoin runningDir filename])
  else sc.

(** [filenames] after [sort.Strings]. *)
Definition monitored (runningDir : string) (names : list string) : list string :=
  let sc := fold_left (scanName runningDir) names (mkScan [] [] []) in
  sortStrings (map Base (csvFiles sc) ++ map Base (pdfFiles sc) ++ map Base (imageFiles sc)).

(** The diff of an item whose fingerprints differ, before the cut. *)
Definition itemDiff (localPath body ts originalFilename : string) : string :=
  let ext := ToLower w (Ext originalFilename) in
  if String.eqb ext ".csv" then generateCSVDiff w localPath body ts originalFilename
  else if String.eqb ext ".pdf" then generatePDFDiff w localPath body ts originalFilename
  else
    let l := extractImageData w localPath in
    let r := extractImageDataFromBytes w body originalFilename in
    generateImageDiff w localPath body (exifData l) (exifData r) (ocrText l) (ocrText r)
      (exifErr l) (exifErr r) (ocrErr l) (ocrErr r) ts originalFilename.

(** The body of the item loop up to, and without, its last statement. *)
Definition itemBody (ts runningDir : string) (i : nat) (originalFilename : string)
    (c : Cycle) : Flow :=
  let localPath := filepathJoin runningDir originalFilename in
  let rawURL :=
    (baseURL ++ PathEscape w originalFilename ++ "?t=" ++ randomTimestamp w i)%string in
  match NewRequest w rawURL with
  | Some _ => Continue zeroHash c
  | None =>
      match Do w rawURL with
      | Err _ => Continue zeroHash c
      | Ok resp =>
          if negb (Nat.eqb (StatusCode resp) StatusOK) then
            let diffText := unavailableReport ts originalFilename (StatusCode resp) rawURL in
            Continue zeroHash (mkCycle (unifiedBuilder c) (shiftLog c ++ [diffText]))
          else
            match Body resp with
            | Err _ => Continue zeroHash c
            | Ok body =>
                let rawHash := sha256Hex body in
                match fileHash w localPath with
                | Err _ => Continue rawHash c
                | Ok localHash =>
                    if String.eqb rawHash localHash then Through rawHash c
                    else
                      let diffText := itemDiff localPath body ts originalFilename in
                      Through rawHash
                        (mkCycle (unifiedBuilder c)
                                 (shiftLog c ++ [truncateDiff diffText]))
                end
            end
      end
  end.

(** One turn of the item loop: [unifiedBuilder.WriteString(rawHash)] is
    its last statement, which a [continue] skips. *)
Definition runItem (ts runningDir : string) (i : nat) (originalFilename : string)
    (c : Cycle) : Cycle :=
  match itemBody ts runningDir i originalFilename c with
  | Continue _ c' => c'
  | Through rawHash c' => mkCycle (WriteString (unifiedBuilder c') rawHash) (shiftLog c')
  end.

Fixpoint runItems (ts runningDir : string) (i : nat) (filenames : list string)
    (c : Cycle) : Cycle :=
  match filenames with
  | [] => c
  | originalFilename :: rest =>
      runItems ts runningDir (S i) rest (runItem ts runningDir i originalFilename c)
  end.

(** [runCycle] with [ts] the clock reading it starts from: the state it
    ends in, or [None] when the directory cannot be listed and it returns
    before any item. *)
Definition runCycle (interval : nat) (runningDir ts : string) : option Cycle :=
  match Readdirnames w runningDir with
  | Err _ => None
  | Ok names => Some (runItems ts runningDir 0 (monitored runningDir names) (mkCycle [] []))
  end.

End Driver.

(** The [Unified Hash] printed at the end of a cycle. *)
Definition unifiedHash (c : Cycle) : string :=
  sha256Hex (BuilderString (unifiedBuilder c)).

(** What is appended to the log file when it opens. *)
Definition logLines (c : Cycle) : list string :=
  map (fun d => (d ++ nl)%string) (shiftLog c).

(** ** Baseline mode: [fetchBaselines] *)

(** One turn of the loop over the directory names, lines 104 to 116. *)
Definition baselineName (w : World) (baselineFiles : list string) (filename : string)
    : list string :=
  let ext := ToLower w (Ext filename) in
  if String.eqb ext ".csv" || String.eqb ext ".pdf" then baselineFiles ++ [filename]
  else if isMapImage w filename ext then baselineFiles ++ [filename]
  else baselineFiles.

Definition baselineFiles (w : World) (names : list string) : list string :=
  fold_left (baselineName w) names [].

(** One turn of the loop over [baselineFiles], lines 118 to 169: the path
    and the bytes handed to [os.WriteFile], or [None] when the turn is left
    by a [continue] before. *)
Definition baselineItem (w : World) (runningDir : string) (i : nat)
    (originalFilename : string) : option (string * string) :=
  let localPath := filepathJoin runningDir originalFilename in
  let rawURL :=
    (baseURL ++ PathEscape w originalFilename ++ "?t=" ++ randomTimestamp w i)%string in
  match NewRequest w rawURL with
  | Some _ => None
  | None =>
      match Do w rawURL with
      | Err _ => None
      | Ok resp =>
          if negb (Nat.eqb (StatusCode resp) StatusOK) then None
          else match Body resp with
               | Err _ => None
               | Ok body => Some (localPath, body)
               end
      end
  end.

Fixpoint baselineItems (w : World) (runningDir : string) (i : nat)
    (files : list string) : list (string * string) :=
  match files with
  | [] => []
  | originalFilename :: rest =>
      match baselineItem w runningDir i originalFilename with
      | Some write => write :: baselineItems w runningDir (S i) rest
      | None => baselineItems w runningDir (S i) rest
      end
  end.

(** [fetchBaselines]: the calls of [os.WriteFile] it makes, in order, or
    [None] when the directory cannot be listed.  Console messages and the
    pause between fetches are left out. *)
Definition fetchBaselines (w : World) (runningDir : string)
    : option (list (string * string)) :=
  match Readdirnames w runningDir with
  | Err _ => None
  | Ok names => Some (baselineItems w runningDir 0 (baselineFiles w names))
  end.

(** ** The prompt for the interval: [promptInterval] *)

Definition defaultMinutes : Z := 60%Z.

Definition isDigit (c : ascii) : bool :=
  let n := nat_of_ascii c in Nat.leb 48 n && Nat.leb n 57.

(** The value of a run of decimal digits after [acc], [None] when a byte
    is no digit. *)
Fixpoint digitsValue (s : string) (acc : Z) : option Z :=
  match s with
  | EmptyString => Some acc
  | String c s' =>
      if isDigit c
      then digitsValue s' (acc * 10 + (Z.of_nat (nat_of_ascii c) - 48))%Z
      else None
  end.

(** What [strconv.Atoi] reads after the sign. *)
Definition atoiDigits (intSize : Z) (neg : bool) (digits : string) : option Z :=
  match digits with
  | EmptyString => None
  | String _ _ =>
      match digitsValue digits 0 with
      | None => None
      | Some v =>
          let n := if neg then (- v)%Z else v in
          if ((- 2 ^ (intSize - 1) <=? n) && (n <=? 2 ^ (intSize - 1) - 1))%Z
          then Some n else None
      end
  end.

(** [strconv.Atoi] where [int] has [intSize] bits: an optional sign, then
    one digit at least and digits only, the value within the range of
    [int]; [None] stands for every error. *)
Definition Atoi (intSize : Z) (s : string) : option Z :=
  match s with
  | EmptyString => None
  | String c rest =>
      if Ascii.eqb c "-" then atoiDigits intSize true rest
      else if Ascii.eqb c "+" then atoiDigits intSize false rest
      else atoiDigits intSize false s
  end.

(** [promptInterval] on the line read from the standard input, as far as
    it was read. *)
Definition promptInterval (intSize : Z) (line : string) : Z :=
  let text := TrimSpace line in
  if String.eqb text EmptyString then defaultMinutes
  else match Atoi intSize text with
       | Some v => if (0 <? v)%Z then v else defaultMinutes
       | None => defaultMinutes
       end.

(** ** Notions the properties are stated with *)

(** A chunk of a report that itemises one change. *)
Definition isChangeLine (chunk : string) : bool :=
  HasPrefix chunk "Added " || HasPrefix chunk "Omitted " || HasPrefix chunk "Modified ".

(** The detail lines of a report. *)
Definition changeLines (b : Builder) : list string := filter isChangeLine b.

(** A differ state that has written [pre] and then one change line per
    counted change. *)
Definition itemised (pre : Builder) (st : DiffState) : Prop :=
  exists details,
    diff st = pre ++ details /\
    List.length details = tally st /\
    Forall (fun chunk => isChangeLine chunk = true) details.

(** One turn of either loop writes at most one chunk, a change line, and
    counts it. *)
Definition stepsByOne (st st' : DiffState) : Prop :=
  st' = st \/
  exists line, diff st' = WriteString (diff st) line /\ tally st' = S (tally st) /\
               isChangeLine line = true.


(** [chunk] is the change line that turn [k] of the line loop writes, at
    an index where the trimmed lines differ. *)
Definition writtenAt (section : string) (localLines remoteLines : list string)
    (k : nat) (chunk : string) : Prop :=
  lineAt localLines k <> lineAt remoteLines k /\
  (chunk = addedLine section k (lineAt remoteLines k) \/
   chunk = omittedLine section k (lineAt localLines k) \/
   chunk = modifiedLine section k (lineAt localLines k) (lineAt remoteLines k)).

(** Following the words of the claim on the aggregate: the fingerprint item
    [i] stands for in the cycle, the sentinel when its fetch fails or
    answers another status than 200, the fingerprint of the remote bytes
    otherwise. *)
Definition itemFingerprint (w : World) (i : nat) (name : string) : string :=
  let rawURL := (baseURL ++ PathEscape w name ++ "?t=" ++ randomTimestamp w i)%string in
  match NewRequest w rawURL with
  | Some _ => zeroHash
  | None =>
      match Do w rawURL with
      | Err _ => zeroHash
      | Ok resp =>
          if negb (Nat.eqb (StatusCode resp) StatusOK) then zeroHash
          else match Body resp with
               | Err _ => zeroHash
               | Ok body => sha256Hex body
               end
      end
  end.

Fixpoint itemFingerprints (w : World) (i : nat) (names : list string) : list string :=
  match names with
  | [] => []
  | name :: rest => itemFingerprint w i name :: itemFingerprints w (S i) rest
  end.

(** Following the words of the claim: the fingerprint of the concatenation
    of the fingerprints of every monitored item, in sorted order. *)
Definition claimedAggregate (w : World) (runningDir : string) : option string :=
  match Readdirnames w runningDir with
  | Err _ => None
  | Ok names =>
      Some (sha256Hex (String.concat EmptyString
                         (itemFingerprints w 0 (monitored w runningDir names))))
  end.

(** An item whose turn reaches the last statement of the loop: the request
    is built and answered with status 200, the body is read, and the local
    file is read. *)
Definition complete (w : World) (runningDir : string) (i : nat) (name : string) : Prop :=
  let rawURL := (baseURL ++ PathEscape w name ++ "?t=" ++ randomTimestamp w i)%string in
  exists resp body data,
    NewRequest w rawURL = None /\ Do w rawURL = Ok resp /\
    StatusCode resp = StatusOK /\ Body resp = Ok body /\
    readFile w (filepathJoin runningDir name) = Ok data.

(** What [ReadAll] of [encoding/csv] answers: it skips empty lines, and
    every record it returns has at least one field. *)
Definition recordsHaveFields (t : Table) : Prop := Forall (fun row => row <> []) t.

Definition csvReader (w : World) : Prop :=
  forall data t, ReadAll w data = Ok t -> recordsHaveFields t.

(** ** Notions of the further properties *)

From Stdlib Require Import Sorted Permutation DecimalNat.

(** The state of a differ before its first turn. *)
Definition freshState : DiffState := mkDiffState 0 0 0 [].

(** What turn [i] of the row loop writes when nothing was written before. *)
Definition rowChange (localCSV remoteCSV : Table) (i : nat) : list string :=
  diff (csvRow localCSV remoteCSV i freshState).

(** What turn [i] of the line loop writes when nothing was written before. *)
Definition lineChange (section : string) (localLines remoteLines : list string)
    (i : nat) : list string :=
  diff (textLine section localLines remoteLines i freshState).

(** The shape shared by the row loop and the line loop: the tally is tested
    against the cap before each of [n] turns, turn [i] running [body i]. *)
Fixpoint cappedLoop (body : nat -> DiffState -> DiffState) (n i : nat)
    (st : DiffState) : DiffState :=
  match n with
  | O => st
  | S n' => if Nat.ltb (tally st) maxDiffChanges
            then cappedLoop body n' (S i) (body i st) else st
  end.

(** The Added lines, and the Omitted lines, of the rows [rows] numbered
    from index [i]. *)
Fixpoint addedRows (i : nat) (rows : Table) : list string :=
  match rows with
  | [] => []
  | row :: rest => addedRowLine i row :: addedRows (S i) rest
  end.

Fixpoint omittedRows (i : nat) (rows : Table) : list string :=
  match rows with
  | [] => []
  | row :: rest => omittedRowLine i row :: omittedRows (S i) rest
  end.

(** How many chunks of a report start with [prefix]. *)
Definition countPrefix (prefix : string) (b : Builder) : nat :=
  List.length (filter (fun chunk => HasPrefix chunk prefix) b).

(** Two differ states with the same tally, the Added lines of one as many
    as the Omitted lines of the other, and as many Modified lines. *)
Definition mirrored (st st' : DiffState) : Prop :=
  tally st = tally st' /\
  countPrefix "Added " (diff st) = countPrefix "Omitted " (diff st') /\
  countPrefix "Omitted " (diff st) = countPrefix "Added " (diff st') /\
  countPrefix "Modified " (diff st) = countPrefix "Modified " (diff st').

(** An item whose remote bytes are fetched with status 200 and are the
    bytes of its local file. *)
Definition synced (w : World) (runningDir : string) (i : nat) (name : string) : Prop :=
  let rawURL := (baseURL ++ PathEscape w name ++ "?t=" ++ randomTimestamp w i)%string in
  exists resp body,
    NewRequest w rawURL = None /\ Do w rawURL = Ok resp /\
    StatusCode resp = StatusOK /\ Body resp = Ok body /\
    readFile w (filepathJoin runningDir name) = Ok body.

(** The directory entries the program watches: a [.csv] or [.pdf] name, or
    an image name with [map] in it, extension and name taken in lower
    case. *)
Definition isCSVName (w : World) (name : string) : bool :=
  String.eqb (ToLower w (Ext name)) ".csv".

Definition isPDFName (w : World) (name : string) : bool :=
  negb (isCSVName w name) && String.eqb (ToLower w (Ext name)) ".pdf".

Definition isImageName (w : World) (name : string) : bool :=
  negb (isCSVName w name) && negb (String.eqb (ToLower w (Ext name)) ".pdf")
  && isMapImage w name (ToLower w (Ext name)).

Definition selected (w : World) (name : string) : bool :=
  isCSVName w name || isPDFName w name || isImageName w name.

(** Byte order on strings, as a relation. *)
Definition byteLe (a b : string) : Prop := String.leb a b = true.

(** Strings of decimal digits. *)
Fixpoint allDigits (s : string) : bool :=
  match s with
  | EmptyString => true
  | String c s' => isDigit c && allDigits s'
  end.


(** The fetch of baseline mode for the watched entry at position [k]: the
    request for the escaped name, with the timestamp drawn in that turn, is
    built without an error and answered with status 200 and a body that is
    read as [body]. *)
Definition fetchedWith (w : World) (k : nat) (name body : string) : Prop :=
  let rawURL := (baseURL ++ PathEscape w name ++ "?t=" ++ randomTimestamp w k)%string in
  NewRequest w rawURL = None /\
  exists resp, Do w rawURL = Ok resp /\ StatusCode resp = StatusOK /\ Body resp = Ok body.
(** ** Sample worlds *)

(** [strings.ToLower] on ASCII text. *)
Definition lowerByte (c : ascii) : ascii :=
  let n := nat_of_ascii c in
  if Nat.leb 65 n && Nat.leb n 90 then ascii_of_nat (n + 32) else c.

Fixpoint asciiLower (s : string) : string :=
  match s with
  | EmptyString => EmptyString
  | String c s' => String (lowerByte c) (asciiLower s')
  end.

Module Sample.

Definition ts : string := "Oct 31, 2026 - 09:15AM".
Definition dir : string := "/srv/baseline".

(** A world over ASCII file names that need no escaping, with every
    request well formed and every temporary file written. *)
Definition world (names : list string) (files : string -> result string)
    (net : string -> result Response) (exif ocr : string -> result string) : World :=
  {| Readdirnames := fun _ => Ok names;
     readFile := files;
     ToLower := asciiLower;
     PathEscape := fun name => name;
     randomTimestamp := fun i => ("18a2f3c4d5e6f708-" ++ Itoa (i + 417))%string;
     NewRequest := fun _ => None;
     Do := net;
     ReadAll := fun _ => Err "record on line 1: wrong number of fields";
     DecodeExif := exif;
     Text := ocr;
     tempFile := fun _ => Opened |}.

Definition noFile : string -> result string := fun _ => Err "no such file or directory".
Definition noExif : string -> result string :=
  fun _ => Err "exif: failed to find exif intro marker".

(** One PDF is monitored and the remote answers 404. *)
Definition gone : World :=
  world ["plan.pdf"]
    (fun path => if String.eqb path "/srv/baseline/plan.pdf" then Ok "%PDF-1.4 local"
                 else Err "no such file or directory")
    (fun _ => Ok (mkResponse 404 (Ok "404: Not Found")))
    noExif noExif.

Definition longExif : string :=
  String.concat EmptyString (repeat ("Model: Survey Camera 3000" ++ nl)%string 24).

(** One map image is monitored; its local copy carries 624 bytes of
    metadata, the remote bytes carry none. *)
Definition drifted : World :=
  world ["map.png"]
    (fun path => if String.eqb path "/srv/baseline/map.png" then Ok "local image"
                 else Err "no such file or directory")
    (fun _ => Ok (mkResponse 200 (Ok "remote image")))
    (fun data => if String.eqb data "local image" then Ok longExif
                 else Err "exif: failed to find exif intro marker")
    (fun _ => Ok "Main St").

(** One file with a name of 198 bytes is monitored and the remote
    answers 404. *)
Definition longName : string :=
  (String.concat EmptyString (repeat "quarterly-" 19) ++ "plan.pdf")%string.

Definition goneLong : World :=
  world [longName] noFile (fun _ => Ok (mkResponse 404 (Ok "404: Not Found")))
    noExif noExif.

End Sample.


Module Cases.

(** Two monitored files whose remote bytes are the local bytes. *)
Definition inSync : World :=
  Sample.world ["stops.csv"; "notes.txt"; "plan.pdf"]
    (fun path => if String.eqb path "/srv/baseline/plan.pdf" then Ok "%PDF-1.4 plan"
                 else if String.eqb path "/srv/baseline/stops.csv" then Ok "stop,time"
                 else Err "no such file or directory")
    (fun url => if Contains url "plan.pdf" then Ok (mkResponse 200 (Ok "%PDF-1.4 plan"))
                else Ok (mkResponse 200 (Ok "stop,time")))
    Sample.noExif Sample.noExif.

(** Two monitored files: the remote has the table and answers 404 for the
    document. *)
Definition halfGone : World :=
  Sample.world ["plan.pdf"; "stops.csv"; "notes.txt"]
    Sample.noFile
    (fun url => if Contains url "plan.pdf" then Ok (mkResponse 404 (Ok "404: Not Found"))
                else Ok (mkResponse 200 (Ok "stop,time")))
    Sample.noExif Sample.noExif.

(** One AVIF map image, with metadata on both sides. *)
Definition avifMap : World :=
  Sample.world ["map.avif"]
    (fun path => if String.eqb path "/srv/baseline/map.avif" then Ok "local avif"
                 else Err "no such file or directory")
    (fun _ => Ok (mkResponse 200 (Ok "remote avif")))
    (fun data => Ok ("Make: " ++ data ++ nl)%string)
    (fun _ => Ok "never read").

(** One timetable, the same bytes on both sides, read by the CSV reader
    as two records of two fields. *)
Definition timetableBytes : string :=
  ("stop,time" ++ nl ++ "Main St,07:15" ++ nl)%string.

Definition timetable : World :=
  {| Readdirnames := fun _ => Ok ["stops.csv"];
     readFile := fun path => if String.eqb path "/srv/baseline/stops.csv"
                             then Ok timetableBytes
                             else Err "no such file or directory";
     ToLower := asciiLower;
     PathEscape := fun name => name;
     randomTimestamp := fun i => ("18a2f3c4d5e6f708-" ++ Itoa (i + 417))%string;
     NewRequest := fun _ => None;
     Do := fun _ => Ok (mkResponse 200 (Ok timetableBytes));
     ReadAll := fun data => if String.eqb data timetableBytes
                            then Ok [["stop"; "time"]; ["Main St"; "07:15"]]
                            else Err "record on line 2: wrong number of fields";
     DecodeExif := Sample.noExif;
     Text := Sample.noExif;
     tempFile := fun _ => Opened |}.

End Cases.
Example Split_lines :
  Split ("a" ++ nl ++ nl ++ "b" ++ nl) LF = ["a"; ""; "b"; ""].
Proof. reflexivity. Qed.

Example TrimSpace_ascii :
  TrimSpace (bytes [32; 9] ++ "a b" ++ bytes [13; 10]) = "a b".
Proof. reflexivity. Qed.

Example TrimSpace_nbsp :
  TrimSpace (bytes [194; 160] ++ "x" ++ bytes [226; 128; 137; 32]) = "x".
Proof. reflexivity. Qed.

Example TrimSpace_keeps_other_runes :
  TrimSpace (bytes [226; 134; 146; 32]) = bytes [226; 134; 146].
Proof. reflexivity. Qed.

Example Itoa_12 : Itoa 12 = "12" /\ Itoa 0 = "0".
Proof. split; reflexivity. Qed.

Example sha256Hex_empty :
  sha256Hex EmptyString =
  "e3b0c44298fc1c149afbf4c8996fb92427ae41e4649b934ca495991b7852b855".
Proof. vm_compute. reflexivity. Qed.

Example sha256Hex_abc :
  sha256Hex "abc" =
  "ba7816bf8f01cfea414140de5dae2223b00361a396177a9cb410ff61f20015ad".
Proof. vm_compute. reflexivity. Qed.

Example sha256Hex_zeroHash :
  sha256Hex zeroHash =
  "60e05bd1b195af2f94112fa7197a5c88289058840ce7c6df9693756bc6250f55".
Proof. vm_compute. reflexivity. Qed.

Example arrow_utf8 : "→" = arrow.
Proof. reflexivity. Qed.

Example Ext_Base :
  Ext "/data/a.b/Map.PNG" = ".PNG" /\ Ext "/data/a.b/noext" = "" /\
  Base "/data/a.b/Map.PNG" = "Map.PNG" /\ filepathJoin "/data" "x.csv" = "/data/x.csv".
Proof. repeat split. Qed.

Example sortStrings_bytes :
  sortStrings ["b.csv"; "a.pdf"; "Z.csv"; "a.csv"] = ["Z.csv"; "a.csv"; "a.pdf"; "b.csv"].
Proof. reflexivity. Qed.

Example sha256Hex_block_boundaries :
  sha256Hex (String.concat EmptyString (repeat "a" 55)) =
    "9f4390f8d30c2dd92ec9f095b65e2b9ae9b0a925a5258e241c9f1e910f734318" /\
  sha256Hex (String.concat EmptyString (repeat "a" 56)) =
    "b35439a4ac6f0948b6d6f9e3c6af0f5f590ce20f1bde7090ef7970686ec6738a" /\
  sha256Hex (String.concat EmptyString (repeat "a" 64)) =
    "ffe054fe7ae0cb6dc65c3af9b61d5209f439851db43d0ba5997337df154668eb" /\
  sha256Hex (String.concat EmptyString (repeat "a" 120)) =
    "2f3d335432c70b580af0e8e1b3674a7c020d683aa5f73aaaedfdc55af904c21c".
Proof. vm_compute. repeat split. Qed.

Example csv_added_row :
  csvDiffBuilder "t" "f.csv" [["a"; "b"]; ["c"; "d"]] [["a"; "b"]; ["c"; "d"]; ["e"; "f"]]
  = [csvHeader "t" "f.csv"; ("Added row 3: e,f" ++ nl)%string].
Proof. reflexivity. Qed.

Example text_diff_three_kinds :
  generateTextDiff ("a" ++ nl ++ nl ++ "c")%string ("b" ++ nl ++ "x" ++ nl)%string "OCR"
  = ("Modified OCR line 1: 'a' → 'b'" ++ nl ++ "Added OCR line 2: x" ++ nl
     ++ "Omitted OCR line 3: c" ++ nl)%string.
Proof. reflexivity. Qed.

Example scan_and_sort :
  monitored (Sample.world [] Sample.noFile (fun _ => Err "") Sample.noExif Sample.noExif)
    "/srv/baseline" ["b.CSV"; "notes.txt"; "Map-1.JPG"; "photo.png"; "a.pdf"]
  = ["Map-1.JPG"; "a.pdf"; "b.CSV"].
Proof. reflexivity. Qed.

Example longName_length :
  String.length Sample.longName = 198 /\ String.length Sample.longExif = 624.
Proof. split; reflexivity. Qed.

Example cap_reached_on_twelve_rows :
  let report := csvDiffBuilder "t" "f.csv" (map (fun n => [Itoa n]) (seq 0 12))
                  (map (fun _ => ["x"]) (seq 0 12)) in
  List.length report = 11 /\ List.length (changeLines report) = 10 /\
  nth 10 report EmptyString = ("Modified field in row 10, col 1: '9' → 'x'" ++ nl)%string.
Proof. vm_compute. repeat split. Qed.

Example truncateDiff_at_the_bound :
  truncateDiff (String.concat EmptyString (repeat "a" 500)) =
    String.concat EmptyString (repeat "a" 500) /\
  String.length (truncateDiff (String.concat EmptyString (repeat "a" 501))) = 515.
Proof. vm_compute. split; reflexivity. Qed.

Example promptInterval_inputs :
  promptInterval 64 ("15" ++ nl) = 15%Z /\ promptInterval 64 ("  +7 " ++ nl) = 7%Z /\
  promptInterval 64 nl = 60%Z /\ promptInterval 64 ("0" ++ nl) = 60%Z /\
  promptInterval 64 ("-5" ++ nl) = 60%Z /\ promptInterval 64 ("1_0" ++ nl) = 60%Z /\
  promptInterval 64 ("ten" ++ nl) = 60%Z /\ promptInterval 64 "90" = 90%Z /\
  promptInterval 64 ("9223372036854775807" ++ nl) = 9223372036854775807%Z /\
  promptInterval 64 ("9223372036854775808" ++ nl) = 60%Z.
Proof. vm_compute. repeat split. Qed.

(** * Properties *)

(** ** Strings *)

Lemma append_nil_r (s : string) : (s ++ EmptyString)%string = s.
Proof. induction s as [|c s IH]; simpl; [reflexivity | now rewrite IH]. Qed.

Lemma append_assoc (a b c : string) : ((a ++ b) ++ c)%string = (a ++ (b ++ c))%string.
Proof. induction a as [|x a IH]; simpl; [reflexivity | now rewrite IH]. Qed.

Lemma length_append (a b : string) :
  String.length (a ++ b) = String.length a + String.length b.
Proof. induction a as [|x a IH]; simpl; [reflexivity | now rewrite IH]. Qed.

(** ** Builders *)

Lemma BuilderString_app (a b : Builder) :
  BuilderString (a ++ b) = (BuilderString a ++ BuilderString b)%string.
Proof.
  unfold BuilderString.
  induction a as [|x a IH]; simpl.
  - reflexivity.
  - destruct a as [|y a]; simpl in *.
    + destruct b; simpl; [now rewrite append_nil_r | reflexivity].
    + rewrite IH. now rewrite append_assoc.
Qed.

Lemma tally_recordAdded st line : tally (recordAdded st line) = S (tally st).
Proof. unfold tally; simpl; lia. Qed.

Lemma tally_recordOmitted st line : tally (recordOmitted st line) = S (tally st).
Proof. unfold tally; simpl; lia. Qed.

Lemma tally_recordModified st line : tally (recordModified st line) = S (tally st).
Proof. unfold tally; simpl; lia. Qed.

(** ** The field loop *)

Lemma fieldAt_overflow (row : Row) (j : nat) :
  List.length row <= j -> fieldAt row j = EmptyString.
Proof. intros H. unfold fieldAt. now apply nth_overflow. Qed.

(** The field loop either stops at the first index of its range where the
    fields differ, with one Modified line for that index, or finds the
    fields equal over the whole range and records nothing. *)
Lemma compareFields_spec (i : nat) (localRow remoteRow : Row) :
  forall n j0 st,
    (exists j, j0 <= j < j0 + n /\
       fieldAt localRow j <> fieldAt remoteRow j /\
       (forall k, j0 <= k < j -> fieldAt localRow k = fieldAt remoteRow k) /\
       compareFields i localRow remoteRow n j0 st =
         recordModified st
           (modifiedFieldLine i j (fieldAt localRow j) (fieldAt remoteRow j)))
    \/ ((forall k, j0 <= k < j0 + n -> fieldAt localRow k = fieldAt remoteRow k) /\
        compareFields i localRow remoteRow n j0 st = st).
Proof.
  induction n as [|n IH]; intros j0 st; simpl.
  - right. split; [intros k Hk; lia | reflexivity].
  - destruct (String.eqb (fieldAt localRow j0) (fieldAt remoteRow j0)) eqn:E; simpl.
    + apply String.eqb_eq in E.
      destruct (IH (S j0) st) as [(j & Hj & Hne & Hbefore & Hres) | (Hall & Hres)].
      * left. exists j. repeat split; try lia; try assumption.
        intros k Hk. destruct (Nat.eq_dec k j0) as [->|Hk0]; [assumption|].
        apply Hbefore. lia.
      * right. split; [|assumption].
        intros k Hk. destruct (Nat.eq_dec k j0) as [->|Hk0]; [assumption|].
        apply Hall. lia.
    + apply String.eqb_neq in E.
      left. exists j0. repeat split; try lia; try assumption.
Qed.

Lemma compareFields_same (i : nat) (row : Row) :
  forall n j st, compareFields i row row n j st = st.
Proof.
  induction n as [|n IH]; intros j st; simpl; [reflexivity|].
  rewrite String.eqb_refl. simpl. apply IH.
Qed.

Lemma length_pos_cons {A : Type} (l : list A) :
  l <> [] -> Nat.eqb (List.length l) 0 = false.
Proof. destruct l; simpl; [congruence | reflexivity]. Qed.

(** ** The row loop reads its tables through [rowAt] only *)

Lemma csvRow_ext (l1 l2 r1 r2 : Table) (i : nat) (st : DiffState) :
  rowAt l1 i = rowAt l2 i -> rowAt r1 i = rowAt r2 i ->
  csvRow l1 r1 i st = csvRow l2 r2 i st.
Proof. intros Hl Hr. unfold csvRow. now rewrite Hl, Hr. Qed.

(** ** Change lines *)

Lemma isChangeLine_addedRow i row : isChangeLine (addedRowLine i row) = true.
Proof. reflexivity. Qed.
Lemma isChangeLine_omittedRow i row : isChangeLine (omittedRowLine i row) = true.
Proof. reflexivity. Qed.
Lemma isChangeLine_modifiedField i j a b : isChangeLine (modifiedFieldLine i j a b) = true.
Proof. reflexivity. Qed.
Lemma isChangeLine_added s i x : isChangeLine (addedLine s i x) = true.
Proof. reflexivity. Qed.
Lemma isChangeLine_omitted s i x : isChangeLine (omittedLine s i x) = true.
Proof. reflexivity. Qed.
Lemma isChangeLine_modified s i x y : isChangeLine (modifiedLine s i x y) = true.
Proof. reflexivity. Qed.
Lemma isChangeLine_csvHeader ts f : isChangeLine (csvHeader ts f) = false.
Proof. reflexivity. Qed.
Lemma isChangeLine_csvFallback : isChangeLine csvFallback = false.
Proof. reflexivity. Qed.
Lemma isChangeLine_textFallback s : isChangeLine (textFallback s) = false.
Proof. reflexivity. Qed.

Lemma itemised_record (pre : Builder) (st st' : DiffState) (line : string) :
  itemised pre st ->
  diff st' = WriteString (diff st) line -> tally st' = S (tally st) ->
  isChangeLine line = true ->
  itemised pre st'.
Proof.
  intros (details & Hd & Hlen & Hall) Hdiff Htally Hline.
  exists (details ++ [line]). repeat split.
  - rewrite Hdiff, Hd. unfold WriteString. now rewrite app_assoc.
  - rewrite length_app, Hlen, Htally. simpl. lia.
  - apply Forall_app. split; [assumption | now constructor].
Qed.

Lemma csvRow_stepsByOne (localCSV remoteCSV : Table) (i : nat) (st : DiffState) :
  stepsByOne st (csvRow localCSV remoteCSV i st).
Proof.
  unfold csvRow.
  destruct (Nat.eqb (List.length (rowAt localCSV i)) 0).
  { right. eexists. repeat split. apply tally_recordAdded. }
  destruct (Nat.eqb (List.length (rowAt remoteCSV i)) 0).
  { right. eexists. repeat split. apply tally_recordOmitted. }
  destruct (compareFields_spec i (rowAt localCSV i) (rowAt remoteCSV i)
              (Nat.max (List.length (rowAt localCSV i)) (List.length (rowAt remoteCSV i)))
              0 st) as [(j & _ & _ & _ & Hres) | (_ & Hres)]; rewrite Hres.
  - right. eexists. repeat split. apply tally_recordModified.
  - now left.
Qed.

Lemma textLine_stepsByOne (section : string) (ll rl : list string) (i : nat)
    (st : DiffState) :
  stepsByOne st (textLine section ll rl i st).
Proof.
  unfold textLine.
  destruct (_ && _).
  { right. eexists. repeat split. apply tally_recordAdded. }
  destruct (_ && _).
  { right. eexists. repeat split. apply tally_recordOmitted. }
  destruct (negb _).
  - right. eexists. repeat split. apply tally_recordModified.
  - now left.
Qed.

Lemma itemised_step (pre : Builder) (st st' : DiffState) :
  itemised pre st -> stepsByOne st st' -> tally st < maxDiffChanges ->
  itemised pre st' /\ tally st' <= maxDiffChanges.
Proof.
  intros Hit [-> | (line & Hd & Ht & Hl)] Hlt.
  - split; [assumption | lia].
  - split; [now apply (itemised_record pre st st' line) | lia].
Qed.

Lemma csvRows_itemised (localCSV remoteCSV : Table) (pre : Builder) :
  forall n i st,
    itemised pre st -> tally st <= maxDiffChanges ->
    itemised pre (csvRows localCSV remoteCSV n i st) /\
    tally (csvRows localCSV remoteCSV n i st) <= maxDiffChanges.
Proof.
  induction n as [|n IH]; intros i st Hit Hle; simpl; [now split|].
  destruct (Nat.ltb (tally st) maxDiffChanges) eqn:E; [|now split].
  apply Nat.ltb_lt in E.
  destruct (itemised_step pre st _ Hit (csvRow_stepsByOne localCSV remoteCSV i st) E)
    as [Hit' Hle'].
  now apply IH.
Qed.

Lemma textLines_itemised (section : string) (ll rl : list string) (pre : Builder) :
  forall n i st,
    itemised pre st -> tally st <= maxDiffChanges ->
    itemised pre (textLines section ll rl n i st) /\
    tally (textLines section ll rl n i st) <= maxDiffChanges.
Proof.
  induction n as [|n IH]; intros i st Hit Hle; simpl; [now split|].
  destruct (Nat.ltb (tally st) maxDiffChanges) eqn:E; [|now split].
  apply Nat.ltb_lt in E.
  destruct (itemised_step pre st _ Hit (textLine_stepsByOne section ll rl i st) E)
    as [Hit' Hle'].
  now apply IH.
Qed.

Lemma changeLines_details (details : list string) :
  Forall (fun chunk => isChangeLine chunk = true) details ->
  changeLines details = details.
Proof.
  unfold changeLines. induction 1 as [|x l Hx _ IH]; simpl; [reflexivity|].
  now rewrite Hx, IH.
Qed.

Lemma changeLines_app (a b : Builder) : changeLines (a ++ b) = changeLines a ++ changeLines b.
Proof. apply filter_app. Qed.

(** The shape of a report when its differ returns: what was written
    before the loop, then the change lines, then the fallback line when
    there is no change line, and nothing else. *)
Lemma report_shape (pre : Builder) (st : DiffState) (fallback : string) :
  itemised pre st -> changeLines pre = [] -> isChangeLine fallback = false ->
  let report := if Nat.eqb (tally st) 0 then WriteString (diff st) fallback else diff st in
  List.length (changeLines report) = tally st /\
  report = pre ++ changeLines report
             ++ (if Nat.eqb (List.length (changeLines report)) 0 then [fallback] else []).
Proof.
  intros (details & Hd & Hlen & Hall) Hpre Hfb report.
  assert (Hcl : changeLines report = details).
  { unfold report, WriteString. destruct (Nat.eqb (tally st) 0); rewrite Hd.
    - rewrite !changeLines_app, Hpre, (changeLines_details _ Hall). simpl.
      unfold changeLines. simpl. rewrite Hfb. apply app_nil_r.
    - rewrite changeLines_app, Hpre. simpl. now apply changeLines_details. }
  rewrite Hcl, Hlen. split; [reflexivity|].
  unfold report, WriteString. rewrite Hd.
  destruct (Nat.eqb (tally st) 0).
  - now rewrite app_assoc.
  - now rewrite app_nil_r.
Qed.

Lemma csvLoop_itemised (ts filename : string) (localCSV remoteCSV : Table) :
  itemised [csvHeader ts filename] (csvLoop ts filename localCSV remoteCSV) /\
  tally (csvLoop ts filename localCSV remoteCSV) <= maxDiffChanges.
Proof.
  unfold csvLoop. apply csvRows_itemised.
  - exists []. repeat split. constructor.
  - unfold tally, maxDiffChanges. simpl. lia.
Qed.

Lemma textLoop_itemised (localText remoteText section : string) :
  itemised [] (textLoop localText remoteText section) /\
  tally (textLoop localText remoteText section) <= maxDiffChanges.
Proof.
  unfold textLoop. apply textLines_itemised.
  - exists []. repeat split. constructor.
  - unfold tally, maxDiffChanges. simpl. lia.
Qed.

(** ** RowDiffer and LineDiffer: the claims *)

(** C4. Whatever the two tables, and whatever the two texts, the report of
    RowDiffer and the report of LineDiffer hold at most 10 Added, Omitted
    and Modified lines together.  The cap is silent: the report of RowDiffer
    is its header followed by its change lines, the report of LineDiffer is
    its change lines, and the only other line either can hold is the
    fallback line, written when there is no change line at all. *)
Theorem cap_invariant (ts filename section localText remoteText : string)
    (localCSV remoteCSV : Table) :
  let rows := csvDiffBuilder ts filename localCSV remoteCSV in
  let lines := textDiffBuilder localText remoteText section in
  List.length (changeLines rows) <= 10 /\
  List.length (changeLines lines) <= 10 /\
  rows = [csvHeader ts filename] ++ changeLines rows
           ++ (if Nat.eqb (List.length (changeLines rows)) 0 then [csvFallback] else []) /\
  lines = changeLines lines
            ++ (if Nat.eqb (List.length (changeLines lines)) 0
                then [textFallback section] else []).
Proof.
  intros rows lines.
  destruct (csvLoop_itemised ts filename localCSV remoteCSV) as [Hri Hrle].
  destruct (textLoop_itemised localText remoteText section) as [Hli Hlle].
  destruct (report_shape _ _ csvFallback Hri eq_refl isChangeLine_csvFallback)
    as [Hrlen Hrshape].
  destruct (report_shape _ _ (textFallback section) Hli eq_refl
              (isChangeLine_textFallback section)) as [Hllen Hlshape].
  fold (csvDiffBuilder ts filename localCSV remoteCSV) in Hrlen, Hrshape.
  fold (textDiffBuilder localText remoteText section) in Hllen, Hlshape.
  fold rows in Hrlen, Hrshape. fold lines in Hllen, Hlshape.
  unfold maxDiffChanges in *.
  repeat split; try lia; assumption.
Qed.

(** C6. When row [i] of both tables has fields, the row is compared field
    by field over positions 0 to max(len(localRow), len(remoteRow))-1, a
    missing field reading as the empty string.  Either there is a first
    position [j] where the fields differ, and the row counts one more
    modification and appends one line to the report, the line
    [Modified field in row i+1, col j+1: 'local' → 'remote'] with the two
    fields at [j], whatever the fields after [j] are; or the fields agree
    everywhere and the row leaves the counters and the report as they
    are. *)
Theorem first_differing_field (localCSV remoteCSV : Table) (i : nat) (st : DiffState) :
  rowAt localCSV i <> [] -> rowAt remoteCSV i <> [] ->
  let localRow := rowAt localCSV i in
  let remoteRow := rowAt remoteCSV i in
  (exists j,
      j < Nat.max (List.length localRow) (List.length remoteRow) /\
      fieldAt localRow j <> fieldAt remoteRow j /\
      (forall k, k < j -> fieldAt localRow k = fieldAt remoteRow k) /\
      csvRow localCSV remoteCSV i st =
        mkDiffState (addedCount st) (omittedCount st) (modifiedCount st + 1)
          (diff st ++
           [("Modified field in row " ++ Itoa (i + 1) ++ ", col " ++ Itoa (j + 1)
              ++ ": '" ++ fieldAt localRow j ++ "' → '" ++ fieldAt remoteRow j
              ++ "'" ++ nl)%string]))
  \/ ((forall k, fieldAt localRow k = fieldAt remoteRow k) /\
      csvRow localCSV remoteCSV i st = st).
Proof.
  intros Hl Hr localRow remoteRow. unfold csvRow.
  fold localRow remoteRow.
  rewrite (length_pos_cons localRow Hl), (length_pos_cons remoteRow Hr).
  destruct (compareFields_spec i localRow remoteRow
              (Nat.max (List.length localRow) (List.length remoteRow)) 0 st)
    as [(j & Hj & Hne & Hbefore & Hres) | (Hall & Hres)].
  - left. exists j. split; [lia|]. split; [exact Hne|]. split.
    + intros k Hk. apply Hbefore. lia.
    + rewrite Hres. reflexivity.
  - right. split; [|assumption].
    intros k.
    destruct (Nat.lt_ge_cases k (Nat.max (List.length localRow) (List.length remoteRow)))
      as [Hk|Hk].
    + apply Hall. lia.
    + rewrite !fieldAt_overflow by lia. reflexivity.
Qed.

Lemma first_differing_field_witness :
  let localCSV := [["stop"; "Main St"; "07:15"]] in
  let remoteCSV := [["stop"; "Main Street"; "07:20"]] in
  csvRow localCSV remoteCSV 0 (mkDiffState 0 0 0 [("[t] Diff for stops.csv" ++ nl)%string]) =
  mkDiffState 0 0 1
    [("[t] Diff for stops.csv" ++ nl)%string;
     ("Modified field in row 1, col 2: 'Main St' → 'Main Street'" ++ nl)%string].
Proof.
  intros localCSV remoteCSV.
  destruct (first_differing_field localCSV remoteCSV 0
              (mkDiffState 0 0 0 [("[t] Diff for stops.csv" ++ nl)%string]))
    as [(j & Hj & Hne & Hbefore & Hres) | (Hall & _)]; try (simpl; discriminate).
  - destruct j as [|[|[|j]]].
    + elim Hne. reflexivity.
    + exact Hres.
    + specialize (Hbefore 1 (Nat.lt_succ_diag_r 1)). discriminate Hbefore.
    + simpl in Hj. lia.
  - specialize (Hall 1). discriminate Hall.
Defined.

(** C7. On the tables [["a","b"],["c","d"]] and [["a","x"],["c","d"]] the
    report of RowDiffer is its header and one change line, the Modified
    line of row 1, column 2, from b to x. *)
Theorem scenario_one_modified_field (ts filename : string) :
  let report := csvDiffBuilder ts filename [["a"; "b"]; ["c"; "d"]] [["a"; "x"]; ["c"; "d"]] in
  report = [csvHeader ts filename;
            ("Modified field in row 1, col 2: 'b' → 'x'" ++ nl)%string] /\
  changeLines report = [("Modified field in row 1, col 2: 'b' → 'x'" ++ nl)%string].
Proof. split; reflexivity. Qed.



(** ** Reflexivity *)

Lemma csvRow_same (t : Table) (i : nat) (st : DiffState) :
  rowAt t i <> [] -> csvRow t t i st = st.
Proof.
  intros H. unfold csvRow. rewrite (length_pos_cons _ H). apply compareFields_same.
Qed.

Lemma csvRows_same (t : Table) :
  Forall (fun row => row <> []) t ->
  forall n i st, i + n <= List.length t -> csvRows t t n i st = st.
Proof.
  intros Hrows. induction n as [|n IH]; intros i st Hin; simpl; [reflexivity|].
  assert (Hrow : rowAt t i <> []).
  { unfold rowAt. rewrite Forall_forall in Hrows. apply Hrows, nth_In. lia. }
  rewrite (csvRow_same t i st Hrow).
  rewrite IH by lia. now destruct (Nat.ltb (tally st) maxDiffChanges).
Qed.

Lemma textLine_same (section : string) (lines : list string) (i : nat) (st : DiffState) :
  textLine section lines lines i st = st.
Proof.
  unfold textLine. rewrite String.eqb_refl.
  destruct (String.eqb (lineAt lines i) EmptyString); reflexivity.
Qed.

Lemma textLines_same (section : string) (lines : list string) :
  forall n i st, textLines section lines lines n i st = st.
Proof.
  induction n as [|n IH]; intros i st; simpl; [reflexivity|].
  rewrite textLine_same, IH. now destruct (Nat.ltb (tally st) maxDiffChanges).
Qed.

(** RowDiffer on a table whose rows all have fields, against itself. *)
Lemma table_against_itself (ts filename : string) (t : Table) :
  recordsHaveFields t ->
  csvDiffBuilder ts filename t t = [csvHeader ts filename; csvFallback].
Proof.
  intros Hrows. unfold csvDiffBuilder, csvLoop. rewrite Nat.max_id.
  rewrite (csvRows_same t Hrows) by lia. reflexivity.
Qed.

Lemma text_against_itself (s section : string) :
  textDiffBuilder s s section = [textFallback section].
Proof. unfold textDiffBuilder, textLoop. rewrite textLines_same. reflexivity. Qed.

(** C5. RowDiffer and LineDiffer are reflexive.  Every table that the CSV
    reader returns has at least one field in each record; when the local
    file and the remote bytes are read as the same table, the report of
    RowDiffer is its header and the fallback line
    [No specific changes identified (full content mismatch)], with no
    Added, Omitted or Modified line.  For every text, the report of
    LineDiffer on the text and itself is the fallback line
    [No <section> changes identified] alone. *)
Theorem differs_reflexive (w : World) (localPath remoteData ts filename : string)
    (t : Table) (s section : string) :
  csvReader w ->
  parseCSV w localPath = Ok t -> parseCSVFromBytes w remoteData = Ok t ->
  generateCSVDiff w localPath remoteData ts filename =
    ("[" ++ ts ++ "] Diff for " ++ filename ++ nl
      ++ "No specific changes identified (full content mismatch)" ++ nl)%string /\
  changeLines (csvDiffBuilder ts filename t t) = [] /\
  generateTextDiff s s section = ("No " ++ section ++ " changes identified" ++ nl)%string /\
  changeLines (textDiffBuilder s s section) = [].
Proof.
  intros Hreader Hlocal Hremote.
  assert (Hrows : recordsHaveFields t) by (apply (Hreader remoteData); exact Hremote).
  split; [|split; [|split]].
  - unfold generateCSVDiff. rewrite Hlocal, Hremote, (table_against_itself ts filename t Hrows).
    unfold BuilderString, csvHeader, csvFallback. cbn [String.concat].
    rewrite !append_assoc. reflexivity.
  - rewrite (table_against_itself ts filename t Hrows). reflexivity.
  - unfold generateTextDiff. rewrite text_against_itself. reflexivity.
  - rewrite text_against_itself. reflexivity.
Qed.

Lemma timetable_csvReader : csvReader Cases.timetable.
Proof.
  intros data t. cbn [ReadAll Cases.timetable].
  destruct (String.eqb data Cases.timetableBytes); [|discriminate].
  intros H. injection H as <-. repeat constructor; discriminate.
Qed.

Lemma differs_reflexive_witness :
  let s := ("Make: Canon" ++ nl ++ "  " ++ nl ++ "Model: EOS")%string in
  generateCSVDiff Cases.timetable "/srv/baseline/stops.csv" Cases.timetableBytes
    "t" "stops.csv" =
    ("[t] Diff for stops.csv" ++ nl
      ++ "No specific changes identified (full content mismatch)" ++ nl)%string /\
  changeLines (csvDiffBuilder "t" "stops.csv"
                 [["stop"; "time"]; ["Main St"; "07:15"]]
                 [["stop"; "time"]; ["Main St"; "07:15"]]) = [] /\
  generateTextDiff s s "EXIF" = ("No EXIF changes identified" ++ nl)%string /\
  changeLines (textDiffBuilder s s "EXIF") = [].
Proof.
  intros s.
  exact (differs_reflexive Cases.timetable "/srv/baseline/stops.csv" Cases.timetableBytes
           "t" "stops.csv" [["stop"; "time"]; ["Main St"; "07:15"]] s "EXIF"
           timetable_csvReader eq_refl eq_refl).
Defined.

(** ** Lines that trim to nothing *)

Lemma textLine_writes (section : string) (ll rl : list string) (i : nat) (st : DiffState) :
  textLine section ll rl i st = st \/
  exists chunk, diff (textLine section ll rl i st) = diff st ++ [chunk] /\
                writtenAt section ll rl i chunk.
Proof.
  unfold textLine, writtenAt.
  destruct (String.eqb (lineAt ll i) EmptyString) eqn:El;
    destruct (String.eqb (lineAt rl i) EmptyString) eqn:Er; simpl.
  - apply String.eqb_eq in El, Er. rewrite El, Er. simpl. now left.
  - apply String.eqb_eq in El. apply String.eqb_neq in Er.
    right. eexists. split; [reflexivity|]. split; [congruence | now left].
  - apply String.eqb_neq in El. apply String.eqb_eq in Er.
    right. eexists. split; [reflexivity|]. split; [congruence | right; now left].
  - destruct (String.eqb (lineAt ll i) (lineAt rl i)) eqn:E; simpl.
    + now left.
    + apply String.eqb_neq in E.
      right. eexists. split; [reflexivity|]. split; [assumption | right; now right].
Qed.

Lemma textLines_provenance (section : string) (ll rl : list string) :
  forall n i st,
    Forall (fun chunk => exists k, writtenAt section ll rl k chunk) (diff st) ->
    Forall (fun chunk => exists k, writtenAt section ll rl k chunk)
           (diff (textLines section ll rl n i st)).
Proof.
  induction n as [|n IH]; intros i st Hst; simpl; [assumption|].
  destruct (Nat.ltb (tally st) maxDiffChanges); [|assumption].
  apply IH.
  destruct (textLine_writes section ll rl i st) as [-> | (chunk & Hd & Hw)]; [assumption|].
  rewrite Hd. apply Forall_app. split; [assumption|].
  constructor; [now exists i | constructor].
Qed.

(** C9. At a line index where the local line and the remote line both trim
    to the empty string, the turn of LineDiffer for that index leaves the
    counters and the report as they are, whatever the untrimmed lines were;
    and every change line of the whole report was written for an index at
    which the trimmed lines differ, so none of them for that index. *)
Theorem blank_lines_invisible (localText remoteText section : string) (i : nat)
    (st : DiffState) :
  let localLines := Split localText LF in
  let remoteLines := Split remoteText LF in
  lineAt localLines i = EmptyString -> lineAt remoteLines i = EmptyString ->
  textLine section localLines remoteLines i st = st /\
  Forall (fun chunk => exists k, k <> i /\ writtenAt section localLines remoteLines k chunk)
         (changeLines (textDiffBuilder localText remoteText section)).
Proof.
  intros localLines remoteLines Hl Hr. split.
  - unfold textLine. now rewrite Hl, Hr.
  - assert (Hprov : Forall (fun chunk => exists k, writtenAt section localLines remoteLines k chunk)
                      (diff (textLoop localText remoteText section))).
    { unfold textLoop. apply textLines_provenance. constructor. }
    assert (Hcl : changeLines (textDiffBuilder localText remoteText section) =
                  changeLines (diff (textLoop localText remoteText section))).
    { unfold textDiffBuilder, WriteString.
      destruct (Nat.eqb (tally (textLoop localText remoteText section)) 0); [|reflexivity].
      rewrite changeLines_app. unfold changeLines at 2. simpl. apply app_nil_r. }
    rewrite Hcl. unfold changeLines.
    rewrite Forall_forall in *. intros chunk Hin.
    apply filter_In in Hin. destruct Hin as [Hin _].
    destruct (Hprov chunk Hin) as (k & Hw).
    exists k. split; [|assumption].
    intros ->. destruct Hw as [Hne _]. apply Hne.
    fold localLines remoteLines in Hl, Hr. now rewrite Hl, Hr.
Qed.

Lemma blank_lines_invisible_witness :
  let localText := ("Main St" ++ nl ++ " " ++ nl ++ "Depot")%string in
  let remoteText := ("Main St" ++ nl ++ bytes [32; 9; 32] ++ nl ++ "Depot")%string in
  let st := mkDiffState 0 0 0 [] in
  nth 1 (Split localText LF) EmptyString <> nth 1 (Split remoteText LF) EmptyString /\
  generateTextDiff localText remoteText "OCR" = textFallback "OCR" /\
  textLine "OCR" (Split localText LF) (Split remoteText LF) 1 st = st /\
  Forall (fun chunk => exists k, k <> 1 /\
            writtenAt "OCR" (Split localText LF) (Split remoteText LF) k chunk)
         (changeLines (textDiffBuilder localText remoteText "OCR")).
Proof.
  intros localText remoteText st.
  split; [discriminate|]. split; [reflexivity|].
  apply (blank_lines_invisible localText remoteText "OCR" 1 st); reflexivity.
Defined.

(** Texts whose lines all trim to nothing get the fallback line alone. *)
Lemma textLines_blank (section : string) (ll rl : list string) :
  (forall i, lineAt ll i = EmptyString) -> (forall i, lineAt rl i = EmptyString) ->
  forall n i st, textLines section ll rl n i st = st.
Proof.
  intros Hl Hr. induction n as [|n IH]; intros i st; simpl; [reflexivity|].
  unfold textLine at 1. rewrite Hl, Hr. simpl. rewrite IH.
  now destruct (Nat.ltb (tally st) maxDiffChanges).
Qed.

(** ** Substrings *)

Lemma HasPrefix_app (p s : string) : HasPrefix (p ++ s) p = true.
Proof.
  induction p as [|c p IH]; simpl; [reflexivity|].
  now rewrite Ascii.eqb_refl, IH.
Qed.

Lemma Contains_unfold (s sub : string) :
  Contains s sub =
  HasPrefix s sub || match s with
                     | EmptyString => false
                     | String _ s' => Contains s' sub
                     end.
Proof. destruct s; reflexivity. Qed.

Lemma HasPrefix_refl (s : string) : HasPrefix s s = true.
Proof. rewrite <- (append_nil_r s) at 1. apply HasPrefix_app. Qed.

Lemma HasPrefix_app_r (x b s : string) :
  HasPrefix x s = true -> HasPrefix (x ++ b) s = true.
Proof.
  revert x. induction s as [|c s IH]; intros x H; [reflexivity|].
  destruct x as [|d x]; simpl in *; [discriminate|].
  apply andb_true_iff in H. destruct H as [Hc Hs].
  now rewrite Hc, (IH x Hs).
Qed.

Lemma Contains_here (s : string) : Contains s s = true.
Proof. rewrite Contains_unfold, HasPrefix_refl. reflexivity. Qed.

Lemma Contains_app_r (x b s : string) :
  Contains x s = true -> Contains (x ++ b) s = true.
Proof.
  induction x as [|c x IH]; intros H.
  - simpl in H. rewrite orb_false_r in H.
    rewrite Contains_unfold, (HasPrefix_app_r EmptyString b s H). reflexivity.
  - rewrite Contains_unfold in H. apply orb_true_iff in H.
    rewrite Contains_unfold. apply orb_true_iff. destruct H as [H|H].
    + left. now apply HasPrefix_app_r.
    + right. simpl. now apply IH.
Qed.

Lemma Contains_app_l (a x s : string) :
  Contains x s = true -> Contains (a ++ x) s = true.
Proof.
  intros H. induction a as [|c a IH]; simpl; [assumption|].
  rewrite IH. apply orb_true_r.
Qed.

(** ** The fingerprint is 64 hexadecimal digits *)

Lemma length_string_of_list_ascii (l : list ascii) :
  String.length (string_of_list_ascii l) = List.length l.
Proof. induction l as [|c l IH]; simpl; [reflexivity | now rewrite IH]. Qed.

Lemma hexOfWord_length (x : Z) : String.length (SHA256.hexOfWord x) = 8.
Proof.
  unfold SHA256.hexOfWord. rewrite length_string_of_list_ascii, length_map.
  reflexivity.
Qed.

Lemma hex_length (H : list Z) : String.length (SHA256.hex H) = 8 * List.length H.
Proof.
  unfold SHA256.hex. induction H as [|x H IH]; [reflexivity|].
  cbn [map String.concat List.length].
  destruct (map SHA256.hexOfWord H) eqn:E.
  - destruct H; [|discriminate]. rewrite hexOfWord_length. reflexivity.
  - rewrite !length_append, hexOfWord_length. cbn [String.length].
    rewrite IH. simpl. lia.
Qed.

Lemma round_length (st : list Z) (kw : Z * Z) :
  List.length st = 8%nat -> List.length (SHA256.round st kw) = 8%nat.
Proof.
  intros H. do 9 (destruct st as [|? st]; try discriminate). reflexivity.
Qed.

Lemma rounds_length (kws : list (Z * Z)) :
  forall st, List.length st = 8%nat ->
             List.length (fold_left SHA256.round kws st) = 8%nat.
Proof.
  induction kws as [|kw kws IH]; intros st H; simpl; [assumption|].
  apply IH, round_length, H.
Qed.

Lemma block_length (H m : list Z) :
  List.length H = 8%nat -> List.length (SHA256.block H m) = 8%nat.
Proof.
  intros HH. unfold SHA256.block.
  rewrite length_map, length_combine, rounds_length by assumption.
  rewrite HH. reflexivity.
Qed.

Lemma blocks_length :
  forall fuel H ws, List.length H = 8%nat ->
                    List.length (SHA256.blocks fuel H ws) = 8%nat.
Proof.
  induction fuel as [|fuel IH]; intros H ws HH; simpl; [assumption|].
  destruct ws; [assumption|]. apply IH, block_length, HH.
Qed.

Lemma sha256Hex_length (b : string) : String.length (sha256Hex b) = 64.
Proof.
  unfold sha256Hex, SHA256.sum. rewrite hex_length, blocks_length; reflexivity.
Qed.

(** ** OpaqueDiffer *)

(** C8. Whatever the bytes of the local file and the remote bytes, the
    report of OpaqueDiffer is two lines: its header, and the line that gives
    the fingerprint of the local bytes and the fingerprint of the remote
    bytes, each in full, 64 hexadecimal digits.  Nothing else of either blob
    reaches the report. *)
Theorem opaque_diff_fingerprints_only (w : World)
    (localPath localBlob remoteData ts filename : string) :
  readFile w localPath = Ok localBlob ->
  generatePDFDiff w localPath remoteData ts filename =
    ("[" ++ ts ++ "] PDF Diff for " ++ filename ++ nl
      ++ "File Hash: Local=" ++ sha256Hex localBlob
      ++ ", Remote=" ++ sha256Hex remoteData ++ nl)%string /\
  String.length (sha256Hex localBlob) = 64 /\
  String.length (sha256Hex remoteData) = 64.
Proof.
  intros Hread. split; [|split; apply sha256Hex_length].
  unfold generatePDFDiff, fileHash, hashLine. rewrite Hread. reflexivity.
Qed.

Lemma opaque_diff_fingerprints_only_witness :
  generatePDFDiff Sample.gone "/srv/baseline/plan.pdf" "%PDF-1.4 remote" Sample.ts "plan.pdf" =
    ("[" ++ Sample.ts ++ "] PDF Diff for " ++ "plan.pdf" ++ nl
      ++ "File Hash: Local=" ++ sha256Hex "%PDF-1.4 local"
      ++ ", Remote=" ++ sha256Hex "%PDF-1.4 remote" ++ nl)%string /\
  String.length (sha256Hex "%PDF-1.4 local") = 64 /\
  String.length (sha256Hex "%PDF-1.4 remote") = 64.
Proof.
  exact (opaque_diff_fingerprints_only Sample.gone "/srv/baseline/plan.pdf"
           "%PDF-1.4 local" "%PDF-1.4 remote" Sample.ts "plan.pdf" eq_refl).
Defined.

(** ** MediaDiffReconciler *)

Lemma BuilderString_one (x : string) : BuilderString [x] = x.
Proof. reflexivity. Qed.

Lemma imageDiff_sections (w : World) (localPath remoteData : string)
    (localExif remoteExif localOcr remoteOcr : string)
    (localExifErr remoteExifErr localOcrErr remoteOcrErr : option string)
    (ts filename : string) :
  generateImageDiff w localPath remoteData localExif remoteExif localOcr remoteOcr
    localExifErr remoteExifErr localOcrErr remoteOcrErr ts filename =
  (("[" ++ ts ++ "] Image Diff for " ++ filename ++ nl
     ++ hashLine (valueOf (fileHash w localPath)) (sha256Hex remoteData))
   ++ BuilderString (reconcile "EXIF" "EXIF" localExif remoteExif localExifErr remoteExifErr)
   ++ BuilderString (reconcile "OCR" "OCR Text" localOcr remoteOcr localOcrErr remoteOcrErr))%string.
Proof.
  unfold generateImageDiff, imageDiffBuilder, WriteString.
  rewrite !BuilderString_app.
  change (BuilderString []) with EmptyString.
  rewrite !BuilderString_one, !append_assoc. reflexivity.
Qed.

Lemma append_nonempty_r (a b : string) : b <> EmptyString -> (a ++ b)%string <> EmptyString.
Proof. destruct a; simpl; [trivial | discriminate]. Qed.

Lemma reconcile_nonempty (name title localValue remoteValue : string)
    (localErr remoteErr : option string) :
  BuilderString (reconcile name title localValue remoteValue localErr remoteErr)
  <> EmptyString.
Proof.
  unfold reconcile, WriteString.
  destruct localErr as [le|], remoteErr as [re|]; simpl; try discriminate.
  destruct (String.eqb localValue remoteValue); simpl;
    unfold BuilderString; cbn [String.concat]; rewrite ?append_assoc;
    apply append_nonempty_r; simpl; discriminate.
Qed.

Lemma reconcile_remote_failed (name title v remoteValue cause : string) :
  BuilderString (reconcile name title v remoteValue None (Some cause)) =
  ("Remote " ++ name ++ " Error: " ++ cause ++ nl
    ++ name ++ ": Local present, remote extraction failed" ++ nl
    ++ "Local " ++ title ++ ":" ++ nl ++ v ++ nl)%string.
Proof.
  unfold reconcile, WriteString, BuilderString. cbn [app String.concat].
  rewrite !append_assoc. reflexivity.
Qed.

(** Looks for the string searched at the head of a chain of appends, one
    link at a time. *)
Ltac find_in_chain :=
  repeat first
    [ apply Contains_here
    | apply Contains_app_r; apply Contains_here
    | rewrite Contains_unfold; reflexivity
    | apply Contains_app_l ].

Lemma imageDiff_remote_exif_failed (w : World) (localPath remoteData : string)
    (v remoteExif localOcr remoteOcr cause : string)
    (localOcrErr remoteOcrErr : option string) (ts filename : string) :
  let report :=
    generateImageDiff w localPath remoteData v remoteExif localOcr remoteOcr
      None (Some cause) localOcrErr remoteOcrErr ts filename in
  Contains report ("EXIF: Local present, remote extraction failed" ++ nl) = true /\
  Contains report v = true /\
  Contains report cause = true.
Proof.
  intros report. unfold report.
  rewrite imageDiff_sections, reconcile_remote_failed. unfold hashLine.
  rewrite !append_assoc.
  repeat split; find_in_chain.
Qed.

Lemma imageDiff_remote_ocr_failed (w : World) (localPath remoteData : string)
    (localExif remoteExif v remoteOcr cause : string)
    (localExifErr remoteExifErr : option string) (ts filename : string) :
  let report :=
    generateImageDiff w localPath remoteData localExif remoteExif v remoteOcr
      localExifErr remoteExifErr None (Some cause) ts filename in
  Contains report ("OCR: Local present, remote extraction failed" ++ nl) = true /\
  Contains report v = true /\
  Contains report cause = true.
Proof.
  intros report. unfold report.
  rewrite imageDiff_sections, reconcile_remote_failed. unfold hashLine.
  rewrite !append_assoc.
  repeat split; find_in_chain.
Qed.

(** C3, as the code has it.  Whatever the four outcomes, the report of the
    reconciler is its two preamble lines, then the section of the metadata
    channel, then the section of the recognised-text channel, and neither
    section is empty.  When the local extraction of a channel succeeds with
    value [v] and the remote one fails with [cause], the report contains
    the line labelled [Local present, remote extraction failed] behind the
    name of the channel, the value [v] in full and the cause: the section
    of the channel is the line of the remote failure with its cause, the
    labelled line, and [v] under its own heading. *)
Theorem reconciler_four_way (w : World) (localPath remoteData : string)
    (localExif remoteExif localOcr remoteOcr : string)
    (localExifErr remoteExifErr localOcrErr remoteOcrErr : option string)
    (ts filename : string) :
  let exifSection :=
    BuilderString (reconcile "EXIF" "EXIF" localExif remoteExif localExifErr remoteExifErr) in
  let ocrSection :=
    BuilderString (reconcile "OCR" "OCR Text" localOcr remoteOcr localOcrErr remoteOcrErr) in
  generateImageDiff w localPath remoteData localExif remoteExif localOcr remoteOcr
    localExifErr remoteExifErr localOcrErr remoteOcrErr ts filename =
    (("[" ++ ts ++ "] Image Diff for " ++ filename ++ nl
       ++ hashLine (valueOf (fileHash w localPath)) (sha256Hex remoteData))
     ++ exifSection ++ ocrSection)%string /\
  exifSection <> EmptyString /\
  ocrSection <> EmptyString /\
  (forall v cause,
      let report :=
        generateImageDiff w localPath remoteData v remoteExif localOcr remoteOcr
          None (Some cause) localOcrErr remoteOcrErr ts filename in
      BuilderString (reconcile "EXIF" "EXIF" v remoteExif None (Some cause)) =
        ("Remote EXIF Error: " ++ cause ++ nl
          ++ "EXIF: Local present, remote extraction failed" ++ nl
          ++ "Local EXIF:" ++ nl ++ v ++ nl)%string /\
      Contains report ("EXIF: Local present, remote extraction failed" ++ nl) = true /\
      Contains report v = true /\
      Contains report cause = true) /\
  (forall v cause,
      let report :=
        generateImageDiff w localPath remoteData localExif remoteExif v remoteOcr
          localExifErr remoteExifErr None (Some cause) ts filename in
      BuilderString (reconcile "OCR" "OCR Text" v remoteOcr None (Some cause)) =
        ("Remote OCR Error: " ++ cause ++ nl
          ++ "OCR: Local present, remote extraction failed" ++ nl
          ++ "Local OCR Text:" ++ nl ++ v ++ nl)%string /\
      Contains report ("OCR: Local present, remote extraction failed" ++ nl) = true /\
      Contains report v = true /\
      Contains report cause = true).
Proof.
  intros exifSection ocrSection.
  split; [apply imageDiff_sections|].
  split; [apply reconcile_nonempty|].
  split; [apply reconcile_nonempty|].
  split; intros v cause report.
  - split; [apply reconcile_remote_failed | apply imageDiff_remote_exif_failed].
  - split; [apply reconcile_remote_failed | apply imageDiff_remote_ocr_failed].
Qed.

(** C3, as the claim states it, fails on the label: with the local
    metadata [GPS: 45.0] and the remote extraction failed on a decode
    error, the report holds the label with a capital L, and nowhere the
    text [local present, remote extraction failed]. *)
Lemma reconciler_label_is_capitalised :
  let report :=
    generateImageDiff Sample.drifted "/srv/baseline/map.png" "remote image"
      "GPS: 45.0" EmptyString "Main St" "Main St"
      None (Some "decode error") None None Sample.ts "map.png" in
  Contains report "local present, remote extraction failed" = false /\
  Contains report "Local present, remote extraction failed" = true /\
  Contains report "GPS: 45.0" = true /\
  Contains report "decode error" = true.
Proof. vm_compute. repeat split. Qed.

(** ** The cut before the log *)

Lemma substring_0_length (m : nat) (s : string) :
  String.length (substring 0 m s) = Nat.min m (String.length s).
Proof.
  revert s. induction m as [|m IH]; intros s.
  - destruct s; reflexivity.
  - destruct s as [|c s]; simpl; [reflexivity|]. now rewrite IH.
Qed.

Lemma substring_0_all (s : string) : substring 0 (String.length s) s = s.
Proof. induction s as [|c s IH]; simpl; [reflexivity | now rewrite IH]. Qed.

Lemma substring_app_skip (a b : string) (n : nat) :
  substring (String.length a) n (a ++ b) = substring 0 n b.
Proof. induction a as [|c a IH]; simpl; [reflexivity | apply IH]. Qed.

Lemma HasSuffix_app (a p : string) : HasSuffix (a ++ p) p = true.
Proof.
  unfold HasSuffix. rewrite length_append.
  replace (String.length a + String.length p - String.length p) with (String.length a) by lia.
  rewrite substring_app_skip, substring_0_all, String.eqb_refl.
  rewrite andb_true_r. apply Nat.leb_le. lia.
Qed.

(** What lines 303 to 305 do to a diff. *)
Lemma truncateDiff_spec (d : string) :
  String.length (truncateDiff d) <= 515 /\
  (String.length d <= 500 -> truncateDiff d = d) /\
  (500 < String.length d ->
     truncateDiff d = (substring 0 500 d ++ truncationMarker)%string /\
     String.length (truncateDiff d) = 515 /\
     HasSuffix (truncateDiff d) truncationMarker = true).
Proof.
  unfold truncateDiff, maxDiffChars.
  destruct (Nat.ltb 500 (String.length d)) eqn:E.
  - apply Nat.ltb_lt in E.
    assert (Hlen : String.length (substring 0 500 d ++ truncationMarker) = 515).
    { rewrite length_append, substring_0_length. simpl (String.length truncationMarker). lia. }
    repeat split; try lia; try assumption.
    apply HasSuffix_app.
  - apply Nat.ltb_ge in E. repeat split; try lia.
Qed.

(** One turn of the item loop leaves the log as it is or appends one
    entry: a notice that the remote is unavailable, or the cut diff of the
    item. *)
Lemma runItem_shiftLog (w : World) (ts runningDir : string) (i : nat)
    (originalFilename : string) (c : Cycle) :
  shiftLog (runItem w ts runningDir i originalFilename c) = shiftLog c \/
  (exists status url,
      shiftLog (runItem w ts runningDir i originalFilename c) =
      shiftLog c ++ [unavailableReport ts originalFilename status url]) \/
  (exists localPath body,
      shiftLog (runItem w ts runningDir i originalFilename c) =
      shiftLog c ++ [truncateDiff (itemDiff w localPath body ts originalFilename)]).
Proof.
  unfold runItem, itemBody.
  destruct (NewRequest w _); [now left|].
  destruct (Do w _) as [resp|]; [|now left].
  destruct (negb (Nat.eqb (StatusCode resp) StatusOK)).
  { right. left. simpl. eauto. }
  destruct (Body resp) as [body|]; [|now left].
  destruct (fileHash w _) as [localHash|]; [|now left].
  destruct (String.eqb (sha256Hex body) localHash); [now left|].
  right. right. simpl. eauto.
Qed.

Lemma runItems_shiftLog (w : World) (ts runningDir : string) (P : string -> Prop) :
  (forall name status url, P (unavailableReport ts name status url)) ->
  (forall localPath body name, P (truncateDiff (itemDiff w localPath body ts name))) ->
  forall filenames i c,
    Forall P (shiftLog c) ->
    Forall P (shiftLog (runItems w ts runningDir i filenames c)).
Proof.
  intros Hun Hcut. induction filenames as [|name rest IH]; intros i c Hc; simpl.
  - assumption.
  - apply IH.
    destruct (runItem_shiftLog w ts runningDir i name c)
      as [-> | [(status & url & ->) | (localPath & body & ->)]].
    + assumption.
    + apply Forall_app. split; [assumption|]. constructor; [apply Hun | constructor].
    + apply Forall_app. split; [assumption|]. constructor; [apply Hcut | constructor].
Qed.

(** C2, as the code has it.  Every entry of the log of a cycle is either a
    notice that a remote is unavailable, or the report of a differ after the
    cut: at most 515 bytes, equal to the report when the report is at most
    500 bytes, and otherwise the first 500 bytes of the report followed by
    the 15 bytes of the truncation marker. *)
Theorem diff_reports_bounded (w : World) (interval : nat) (runningDir ts : string)
    (c : Cycle) (entry : string) :
  runCycle w interval runningDir ts = Some c -> In entry (shiftLog c) ->
  (exists name status url, entry = unavailableReport ts name status url) \/
  (exists localPath body name,
      let report := itemDiff w localPath body ts name in
      entry = truncateDiff report /\
      String.length entry <= 515 /\
      (String.length report <= 500 -> entry = report) /\
      (500 < String.length report ->
         entry = (substring 0 500 report ++ "... (truncated)")%string /\
         String.length entry = 515 /\
         HasSuffix entry "... (truncated)" = true)).
Proof.
  intros Hrun Hin. unfold runCycle in Hrun.
  destruct (Readdirnames w runningDir) as [names|]; [|discriminate].
  injection Hrun as <-.
  revert entry Hin. apply Forall_forall.
  apply runItems_shiftLog.
  - intros name status url. left. eauto.
  - intros localPath body name. right. exists localPath, body, name.
    cbv zeta. split; [reflexivity|]. apply truncateDiff_spec.
  - constructor.
Qed.

Lemma diff_reports_bounded_witness :
  exists c entry,
    runCycle Sample.drifted 60 Sample.dir Sample.ts = Some c /\
    In entry (shiftLog c) /\
    ((exists name status url, entry = unavailableReport Sample.ts name status url) \/
     (exists localPath body name,
         let report := itemDiff Sample.drifted localPath body Sample.ts name in
         entry = truncateDiff report /\
         String.length entry <= 515 /\
         (String.length report <= 500 -> entry = report) /\
         (500 < String.length report ->
            entry = (substring 0 500 report ++ "... (truncated)")%string /\
            String.length entry = 515 /\
            HasSuffix entry "... (truncated)" = true))).
Proof.
  eexists. eexists.
  assert (Hrun : runCycle Sample.drifted 60 Sample.dir Sample.ts =
                 Some (runItems Sample.drifted Sample.ts Sample.dir 0
                         (monitored Sample.drifted Sample.dir ["map.png"]) (mkCycle [] [])))
    by reflexivity.
  split; [exact Hrun|].
  assert (Hin : In (truncateDiff (itemDiff Sample.drifted "/srv/baseline/map.png"
                                    "remote image" Sample.ts "map.png"))
                   (shiftLog (runItems Sample.drifted Sample.ts Sample.dir 0
                                (monitored Sample.drifted Sample.dir ["map.png"])
                                (mkCycle [] [])))).
  { vm_compute. left. reflexivity. }
  split; [exact Hin|].
  exact (diff_reports_bounded Sample.drifted 60 Sample.dir Sample.ts _ _ Hrun Hin).
Defined.

(** C2, as the claim states it, fails: the cut keeps 500 bytes and then
    appends the marker, so the diff of the map image with 624 bytes of
    local metadata reaches the log with 515 bytes; and a notice that the
    remote is unavailable reaches the log uncut, 586 bytes for a file name
    of 198 bytes. *)
Lemma logged_report_exceeds_500 :
  (exists c entry,
      runCycle Sample.drifted 60 Sample.dir Sample.ts = Some c /\
      shiftLog c = [entry] /\
      String.length entry = 515 /\
      HasSuffix entry "... (truncated)" = true) /\
  (exists c entry,
      runCycle Sample.goneLong 60 Sample.dir Sample.ts = Some c /\
      shiftLog c = [entry] /\
      String.length entry = 586).
Proof.
  split; eexists; eexists; (split; [vm_compute; reflexivity|]);
    (split; [reflexivity|]); vm_compute; repeat split.
Qed.

(** ** The aggregate fingerprint *)

(** A turn that reaches the last statement of the loop writes the
    fingerprint of the remote bytes. *)
Lemma runItem_complete (w : World) (ts runningDir : string) (i : nat) (name : string)
    (c : Cycle) :
  complete w runningDir i name ->
  unifiedBuilder (runItem w ts runningDir i name c) =
  unifiedBuilder c ++ [itemFingerprint w i name].
Proof.
  intros (resp & body & data & Hreq & Hdo & Hstatus & Hbody & Hread).
  unfold runItem, itemBody, itemFingerprint, fileHash.
  rewrite Hreq, Hdo, Hstatus, Hbody, Hread. simpl.
  destruct (String.eqb (sha256Hex body) (sha256Hex data)); reflexivity.
Qed.

(** When every item is complete, the builder holds the fingerprints of all
    items in order, as the claim on the aggregate has it. *)
Lemma runItems_complete (w : World) (ts runningDir : string) :
  forall names i c,
    (forall k name, nth_error names k = Some name -> complete w runningDir (i + k) name) ->
    unifiedBuilder (runItems w ts runningDir i names c) =
    unifiedBuilder c ++ itemFingerprints w i names.
Proof.
  induction names as [|name rest IH]; intros i c Hall; simpl.
  - now rewrite app_nil_r.
  - rewrite IH.
    + rewrite (runItem_complete w ts runningDir i name c).
      * now rewrite <- app_assoc.
      * specialize (Hall 0 name eq_refl). now rewrite Nat.add_0_r in Hall.
    + intros k name' Hk. replace (S i + k) with (i + S k) by lia. now apply Hall.
Qed.

(** A turn left by [continue] writes nothing, whatever [rawHash] was set
    to before. *)
Lemma runItem_unavailable (w : World) (ts runningDir : string) (i : nat) (name : string)
    (c : Cycle) (resp : Response) :
  NewRequest w (baseURL ++ PathEscape w name ++ "?t=" ++ randomTimestamp w i) = None ->
  Do w (baseURL ++ PathEscape w name ++ "?t=" ++ randomTimestamp w i) = Ok resp ->
  StatusCode resp <> StatusOK ->
  unifiedBuilder (runItem w ts runningDir i name c) = unifiedBuilder c /\
  itemFingerprint w i name = zeroHash.
Proof.
  intros Hreq Hdo Hstatus. apply Nat.eqb_neq in Hstatus.
  unfold runItem, itemBody, itemFingerprint. rewrite Hreq, Hdo, Hstatus. simpl.
  split; reflexivity.
Qed.

(** C1 on the code, at a cycle over one PDF whose remote answers 404: the
    turn sets [rawHash] to the sentinel and leaves by [continue], the
    builder stays empty, and the aggregate printed is the fingerprint of the
    empty string, where the claim has the fingerprint of the sentinel. *)
Theorem sentinel_skipped_by_continue :
  exists c,
    runCycle Sample.gone 60 Sample.dir Sample.ts = Some c /\
    itemBody Sample.gone Sample.ts Sample.dir 0 "plan.pdf" (mkCycle [] []) =
      Continue zeroHash
        (mkCycle [] [unavailableReport Sample.ts "plan.pdf" 404
                       (baseURL ++ "plan.pdf?t=18a2f3c4d5e6f708-417")]) /\
    unifiedBuilder c = [] /\
    unifiedHash c = "e3b0c44298fc1c149afbf4c8996fb92427ae41e4649b934ca495991b7852b855" /\
    claimedAggregate Sample.gone Sample.dir =
      Some "60e05bd1b195af2f94112fa7197a5c88289058840ce7c6df9693756bc6250f55" /\
    String.eqb (unifiedHash c) (sha256Hex zeroHash) = false.
Proof.
  eexists. split; [vm_compute; reflexivity|].
  vm_compute. repeat split.
Qed.

(** * Further properties *)

(** ** The loops write the first ten changes, in order *)

Lemma tally_recordAdded_plus st line : tally (recordAdded st line) = tally st + 1.
Proof. unfold tally; simpl; lia. Qed.

Lemma tally_recordOmitted_plus st line : tally (recordOmitted st line) = tally st + 1.
Proof. unfold tally; simpl; lia. Qed.

Lemma tally_recordModified_plus st line : tally (recordModified st line) = tally st + 1.
Proof. unfold tally; simpl; lia. Qed.

Lemma compareFields_frame (i : nat) (localRow remoteRow : Row) :
  forall n j st,
    diff (compareFields i localRow remoteRow n j st) =
      diff st ++ diff (compareFields i localRow remoteRow n j freshState) /\
    tally (compareFields i localRow remoteRow n j st) =
      tally st + List.length (diff (compareFields i localRow remoteRow n j freshState)) /\
    List.length (diff (compareFields i localRow remoteRow n j freshState)) <= 1.
Proof.
  induction n as [|n IH]; intros j st; simpl.
  - rewrite app_nil_r. repeat split; simpl; lia.
  - destruct (negb (String.eqb (fieldAt localRow j) (fieldAt remoteRow j))).
    + repeat split; simpl; try lia. apply tally_recordModified_plus.
    + apply IH.
Qed.

Lemma csvRow_frame (localCSV remoteCSV : Table) (i : nat) (st : DiffState) :
  diff (csvRow localCSV remoteCSV i st) = diff st ++ rowChange localCSV remoteCSV i /\
  tally (csvRow localCSV remoteCSV i st) =
    tally st + List.length (rowChange localCSV remoteCSV i) /\
  List.length (rowChange localCSV remoteCSV i) <= 1.
Proof.
  unfold rowChange, csvRow.
  destruct (Nat.eqb (List.length (rowAt localCSV i)) 0).
  { repeat split; simpl; try lia. apply tally_recordAdded_plus. }
  destruct (Nat.eqb (List.length (rowAt remoteCSV i)) 0).
  { repeat split; simpl; try lia. apply tally_recordOmitted_plus. }
  apply compareFields_frame.
Qed.

Lemma textLine_frame (section : string) (ll rl : list string) (i : nat) (st : DiffState) :
  diff (textLine section ll rl i st) = diff st ++ lineChange section ll rl i /\
  tally (textLine section ll rl i st) =
    tally st + List.length (lineChange section ll rl i) /\
  List.length (lineChange section ll rl i) <= 1.
Proof.
  unfold lineChange, textLine.
  destruct (_ && _).
  { repeat split; simpl; try lia. apply tally_recordAdded_plus. }
  destruct (_ && _).
  { repeat split; simpl; try lia. apply tally_recordOmitted_plus. }
  destruct (negb _).
  - repeat split; simpl; try lia. apply tally_recordModified_plus.
  - rewrite app_nil_r. repeat split; simpl; lia.
Qed.

Lemma csvRows_cappedLoop (localCSV remoteCSV : Table) :
  forall n i st,
    csvRows localCSV remoteCSV n i st = cappedLoop (csvRow localCSV remoteCSV) n i st.
Proof.
  induction n as [|n IH]; intros i st; simpl; [reflexivity|]. now rewrite IH.
Qed.

Lemma textLines_cappedLoop (section : string) (ll rl : list string) :
  forall n i st,
    textLines section ll rl n i st = cappedLoop (textLine section ll rl) n i st.
Proof.
  induction n as [|n IH]; intros i st; simpl; [reflexivity|]. now rewrite IH.
Qed.

(** A capped loop whose turn [i] appends [change i], of length at most
    one, writes the changes of its turns in order until ten are written. *)
Section CappedLoop.

Variable body : nat -> DiffState -> DiffState.
Variable change : nat -> list string.
Hypothesis body_frame : forall i st,
  diff (body i st) = diff st ++ change i /\
  tally (body i st) = tally st + List.length (change i) /\
  List.length (change i) <= 1.

Lemma cappedLoop_firstn :
  forall n i st,
    tally st <= maxDiffChanges ->
    let written := firstn (maxDiffChanges - tally st) (flat_map change (seq i n)) in
    diff (cappedLoop body n i st) = diff st ++ written /\
    tally (cappedLoop body n i st) = tally st + List.length written.
Proof.
  induction n as [|n IH]; intros i st Hle; cbn zeta.
  - simpl. rewrite firstn_nil, app_nil_r. split; [reflexivity | simpl; lia].
  - cbn [cappedLoop seq flat_map].
    destruct (body_frame i st) as (Hd & Ht & Hone).
    destruct (Nat.ltb (tally st) maxDiffChanges) eqn:E.
    + apply Nat.ltb_lt in E.
      destruct (IH (S i) (body i st)) as [IHd IHt]; [lia|].
      cbn zeta in IHd, IHt.
      rewrite firstn_app.
      rewrite (@firstn_all2 _ (maxDiffChanges - tally st) (change i)) by lia.
      replace (maxDiffChanges - tally st - List.length (change i))
        with (maxDiffChanges - tally (body i st)) by lia.
      rewrite IHd, IHt, Hd, Ht, length_app, <- app_assoc. split; [reflexivity | lia].
    + apply Nat.ltb_ge in E.
      replace (maxDiffChanges - tally st) with 0 by lia.
      simpl. rewrite app_nil_r. split; [reflexivity | lia].
Qed.

End CappedLoop.

Lemma csvDiffBuilder_changes (ts filename : string) (localCSV remoteCSV : Table) :
  let changes :=
    flat_map (rowChange localCSV remoteCSV)
      (seq 0 (Nat.max (List.length localCSV) (List.length remoteCSV))) in
  csvDiffBuilder ts filename localCSV remoteCSV =
    [csvHeader ts filename] ++ firstn 10 changes
      ++ (if Nat.eqb (List.length changes) 0 then [csvFallback] else []).
Proof.
  intros changes.
  assert (Hloop : diff (csvLoop ts filename localCSV remoteCSV) =
                    [csvHeader ts filename] ++ firstn 10 changes /\
                  tally (csvLoop ts filename localCSV remoteCSV) =
                    List.length (firstn 10 changes)).
  { unfold csvLoop. rewrite csvRows_cappedLoop.
    destruct (cappedLoop_firstn (csvRow localCSV remoteCSV) (rowChange localCSV remoteCSV)
                (csvRow_frame localCSV remoteCSV)
                (Nat.max (List.length localCSV) (List.length remoteCSV)) 0
                (mkDiffState 0 0 0 (WriteString [] (csvHeader ts filename))))
      as [Hd Ht]; [unfold tally, maxDiffChanges; simpl; lia|].
    cbn zeta in Hd, Ht. split; [exact Hd | exact Ht]. }
  destruct Hloop as [Hd Ht].
  assert (Hzero : Nat.eqb (tally (csvLoop ts filename localCSV remoteCSV)) 0 =
                  Nat.eqb (List.length changes) 0).
  { rewrite Ht, length_firstn. destruct changes; reflexivity. }
  unfold csvDiffBuilder, WriteString. rewrite Hzero, Hd.
  destruct (Nat.eqb (List.length changes) 0); [now rewrite <- app_assoc | now rewrite app_nil_r].
Qed.

Lemma textDiffBuilder_changes (localText remoteText section : string) :
  let localLines := Split localText LF in
  let remoteLines := Split remoteText LF in
  let changes :=
    flat_map (lineChange section localLines remoteLines)
      (seq 0 (Nat.max (List.length localLines) (List.length remoteLines))) in
  textDiffBuilder localText remoteText section =
    firstn 10 changes
      ++ (if Nat.eqb (List.length changes) 0 then [textFallback section] else []).
Proof.
  intros localLines remoteLines changes.
  assert (Hloop : diff (textLoop localText remoteText section) = firstn 10 changes /\
                  tally (textLoop localText remoteText section) =
                    List.length (firstn 10 changes)).
  { unfold textLoop. rewrite textLines_cappedLoop.
    destruct (cappedLoop_firstn (textLine section localLines remoteLines)
                (lineChange section localLines remoteLines)
                (textLine_frame section localLines remoteLines)
                (Nat.max (List.length localLines) (List.length remoteLines)) 0
                (mkDiffState 0 0 0 []))
      as [Hd Ht]; [unfold tally, maxDiffChanges; simpl; lia|].
    cbn zeta in Hd, Ht. split; [exact Hd | exact Ht]. }
  destruct Hloop as [Hd Ht].
  assert (Hzero : Nat.eqb (tally (textLoop localText remoteText section)) 0 =
                  Nat.eqb (List.length changes) 0).
  { rewrite Ht, length_firstn. destruct changes; reflexivity. }
  unfold textDiffBuilder, WriteString. rewrite Hzero, Hd.
  destruct (Nat.eqb (List.length changes) 0); [reflexivity | now rewrite app_nil_r].
Qed.

Lemma rowChange_isChangeLine (localCSV remoteCSV : Table) (i : nat) :
  Forall (fun chunk => isChangeLine chunk = true) (rowChange localCSV remoteCSV i).
Proof.
  unfold rowChange.
  destruct (csvRow_stepsByOne localCSV remoteCSV i freshState)
    as [-> | (line & Hd & _ & Hl)].
  - constructor.
  - rewrite Hd. repeat constructor. exact Hl.
Qed.

Lemma lineChange_isChangeLine (section : string) (ll rl : list string) (i : nat) :
  Forall (fun chunk => isChangeLine chunk = true) (lineChange section ll rl i).
Proof.
  unfold lineChange.
  destruct (textLine_stepsByOne section ll rl i freshState)
    as [-> | (line & Hd & _ & Hl)].
  - constructor.
  - rewrite Hd. repeat constructor. exact Hl.
Qed.

Lemma Forall_flat_map {A B : Type} (P : B -> Prop) (f : A -> list B) (l : list A) :
  (forall a, Forall P (f a)) -> Forall P (flat_map f l).
Proof.
  intros H. induction l as [|a l IH]; simpl; [constructor|].
  apply Forall_app. split; [apply H | exact IH].
Qed.

Lemma Forall_firstn {A : Type} (P : A -> Prop) (n : nat) (l : list A) :
  Forall P l -> Forall P (firstn n l).
Proof.
  intros H. revert n. induction H as [|x l Hx Hl IH]; intros [|n]; simpl;
    constructor; auto.
Qed.

(** X1. The change lines of a RowDiffer report are the first ten, in row
    order, of the lines that the rows give one by one: the report is the
    header, those lines, and the fallback line when no row gives a line. *)
Theorem rowdiffer_first_ten_in_order (ts filename : string) (localCSV remoteCSV : Table) :
  let maxRows := Nat.max (List.length localCSV) (List.length remoteCSV) in
  let changes := flat_map (rowChange localCSV remoteCSV) (seq 0 maxRows) in
  csvDiffBuilder ts filename localCSV remoteCSV =
    [csvHeader ts filename] ++ firstn 10 changes
      ++ (if Nat.eqb (List.length changes) 0 then [csvFallback] else []) /\
  changeLines (csvDiffBuilder ts filename localCSV remoteCSV) = firstn 10 changes /\
  List.length (changeLines (csvDiffBuilder ts filename localCSV remoteCSV)) =
    Nat.min 10 (List.length changes).
Proof.
  intros maxRows changes.
  assert (Hall : Forall (fun chunk => isChangeLine chunk = true) (firstn 10 changes)).
  { apply Forall_firstn, Forall_flat_map. intros i. apply rowChange_isChangeLine. }
  assert (Hcl : changeLines (csvDiffBuilder ts filename localCSV remoteCSV) =
                firstn 10 changes).
  { rewrite csvDiffBuilder_changes. fold maxRows. fold changes.
    rewrite changeLines_app.
    change (changeLines [csvHeader ts filename]) with (@nil string). cbn [app].
    rewrite changeLines_app, (changeLines_details _ Hall).
    destruct (Nat.eqb (List.length changes) 0); unfold changeLines; simpl;
      apply app_nil_r. }
  split; [apply csvDiffBuilder_changes|]. split; [exact Hcl|].
  rewrite Hcl. apply length_firstn.
Qed.

(** X2. The change lines of a LineDiffer report are the first ten, in line
    order, of the lines that the line indexes give one by one; the fallback
    line is written when no index gives a line. *)
Theorem linediffer_first_ten_in_order (localText remoteText section : string) :
  let localLines := Split localText LF in
  let remoteLines := Split remoteText LF in
  let maxLines := Nat.max (List.length localLines) (List.length remoteLines) in
  let changes := flat_map (lineChange section localLines remoteLines) (seq 0 maxLines) in
  textDiffBuilder localText remoteText section =
    firstn 10 changes
      ++ (if Nat.eqb (List.length changes) 0 then [textFallback section] else []) /\
  changeLines (textDiffBuilder localText remoteText section) = firstn 10 changes /\
  List.length (changeLines (textDiffBuilder localText remoteText section)) =
    Nat.min 10 (List.length changes).
Proof.
  intros localLines remoteLines maxLines changes.
  assert (Hall : Forall (fun chunk => isChangeLine chunk = true) (firstn 10 changes)).
  { apply Forall_firstn, Forall_flat_map. intros i. apply lineChange_isChangeLine. }
  assert (Hcl : changeLines (textDiffBuilder localText remoteText section) =
                firstn 10 changes).
  { rewrite textDiffBuilder_changes. fold localLines remoteLines maxLines. fold changes.
    rewrite changeLines_app, (changeLines_details _ Hall).
    destruct (Nat.eqb (List.length changes) 0); unfold changeLines; simpl;
      apply app_nil_r. }
  split; [apply textDiffBuilder_changes|]. split; [exact Hcl|].
  rewrite Hcl. apply length_firstn.
Qed.

(** ** Rows appended and rows removed *)

Lemma rowChange_same (localCSV remoteCSV : Table) (i : nat) :
  rowAt localCSV i = rowAt remoteCSV i -> rowAt localCSV i <> [] ->
  rowChange localCSV remoteCSV i = [].
Proof.
  intros Heq Hne. unfold rowChange.
  rewrite (csvRow_ext localCSV localCSV remoteCSV localCSV i freshState eq_refl (eq_sym Heq)).
  now rewrite (csvRow_same localCSV i freshState Hne).
Qed.

Lemma rowChange_added (localCSV remoteCSV : Table) (i : nat) :
  rowAt localCSV i = [] ->
  rowChange localCSV remoteCSV i = [addedRowLine i (rowAt remoteCSV i)].
Proof. intros H. unfold rowChange, csvRow. rewrite H. reflexivity. Qed.

Lemma rowChange_omitted (localCSV remoteCSV : Table) (i : nat) :
  rowAt localCSV i <> [] -> rowAt remoteCSV i = [] ->
  rowChange localCSV remoteCSV i = [omittedRowLine i (rowAt localCSV i)].
Proof.
  intros Hl Hr. unfold rowChange, csvRow.
  rewrite (length_pos_cons _ Hl), Hr. reflexivity.
Qed.

Lemma flat_map_seq_nil {B : Type} (f : nat -> list B) :
  forall n start, (forall i, start <= i < start + n -> f i = []) ->
                  flat_map f (seq start n) = [].
Proof.
  induction n as [|n IH]; intros start H; simpl; [reflexivity|].
  rewrite H by lia. apply IH. intros i Hi. apply H. lia.
Qed.

Lemma rowAt_app_base (base extra : Table) (i : nat) :
  i < List.length base -> rowAt (base ++ extra) i = rowAt base i.
Proof. intros H. unfold rowAt. now apply app_nth1. Qed.

Lemma rowAt_app_extra (base extra : Table) (k : nat) :
  rowAt (base ++ extra) (List.length base + k) = nth k extra [].
Proof.
  unfold rowAt. rewrite app_nth2 by lia. f_equal. lia.
Qed.

Lemma rowAt_beyond (t : Table) (i : nat) : List.length t <= i -> rowAt t i = [].
Proof. intros H. unfold rowAt. now apply nth_overflow. Qed.

Lemma rowAt_nonempty (t : Table) (i : nat) :
  Forall (fun row => row <> []) t -> i < List.length t -> rowAt t i <> [].
Proof.
  intros Hall Hi. unfold rowAt. rewrite Forall_forall in Hall. apply Hall, nth_In, Hi.
Qed.

Lemma changes_of_appended (base : Table) :
  forall extra start offset,
    start = List.length base + offset ->
    forall whole, (forall k, k < List.length extra ->
                             rowAt whole (start + k) = nth k extra []) ->
    flat_map (rowChange base whole) (seq start (List.length extra)) =
    addedRows start extra.
Proof.
  induction extra as [|row rest IH]; intros start offset Hs whole Hw; simpl; [reflexivity|].
  rewrite rowChange_added by (apply rowAt_beyond; lia).
  assert (H0 := Hw 0 (Nat.lt_0_succ _)). rewrite Nat.add_0_r in H0. simpl in H0.
  rewrite H0. simpl. f_equal.
  apply (IH (S start) (S offset)); [lia|].
  intros k Hk. replace (S start + k) with (start + S k) by lia.
  rewrite Hw by (simpl; lia). reflexivity.
Qed.

Lemma changes_of_removed (base : Table) :
  forall extra start offset,
    start = List.length base + offset ->
    Forall (fun row => row <> []) extra ->
    forall whole, (forall k, k < List.length extra ->
                             rowAt whole (start + k) = nth k extra []) ->
    flat_map (rowChange whole base) (seq start (List.length extra)) =
    omittedRows start extra.
Proof.
  induction extra as [|row rest IH]; intros start offset Hs Hne whole Hw; simpl;
    [reflexivity|].
  assert (H0 := Hw 0 (Nat.lt_0_succ _)). rewrite Nat.add_0_r in H0. simpl in H0.
  apply Forall_cons_iff in Hne. destruct Hne as [Hrow Hrest].
  rewrite rowChange_omitted; [| rewrite H0; exact Hrow | apply rowAt_beyond; lia].
  rewrite H0. simpl. f_equal.
  apply (IH (S start) (S offset)); [lia | exact Hrest |].
  intros k Hk. replace (S start + k) with (start + S k) by lia.
  rewrite Hw by (simpl; lia). reflexivity.
Qed.

Lemma addedRows_length (rows : Table) : forall i, List.length (addedRows i rows) = List.length rows.
Proof. induction rows as [|r rows IH]; intros i; simpl; [reflexivity | now rewrite IH]. Qed.

Lemma omittedRows_length (rows : Table) : forall i, List.length (omittedRows i rows) = List.length rows.
Proof. induction rows as [|r rows IH]; intros i; simpl; [reflexivity | now rewrite IH]. Qed.

Lemma map_seq_shift {B : Type} (f : nat -> B) (n : nat) :
  map f (seq 1 n) = map (fun k => f (S k)) (seq 0 n).
Proof. rewrite <- seq_shift, map_map. reflexivity. Qed.

Lemma addedRows_lines (rows : Table) :
  forall i,
    addedRows i rows =
    map (fun k => ("Added row " ++ Itoa (i + k + 1) ++ ": "
                    ++ Join (nth k rows []) "," ++ nl)%string)
        (seq 0 (List.length rows)).
Proof.
  induction rows as [|row rest IH]; intros i; [reflexivity|].
  cbn [addedRows List.length seq map]. rewrite map_seq_shift, IH.
  unfold addedRowLine. rewrite Nat.add_0_r. cbn [nth]. f_equal.
  apply map_ext. intros k. now replace (S i + k) with (i + S k) by lia.
Qed.

Lemma omittedRows_lines (rows : Table) :
  forall i,
    omittedRows i rows =
    map (fun k => ("Omitted row " ++ Itoa (i + k + 1) ++ ": "
                    ++ Join (nth k rows []) "," ++ nl)%string)
        (seq 0 (List.length rows)).
Proof.
  induction rows as [|row rest IH]; intros i; [reflexivity|].
  cbn [omittedRows List.length seq map]. rewrite map_seq_shift, IH.
  unfold omittedRowLine. rewrite Nat.add_0_r. cbn [nth]. f_equal.
  apply map_ext. intros k. now replace (S i + k) with (i + S k) by lia.
Qed.

(** X3. When every row has at least one field and the remote table is the
    local table with rows appended, the report of RowDiffer is the header
    and, for the first ten appended rows in order, the line
    [Added row n:] with the number of the row in the remote table and its
    fields joined by commas; when the local table is the remote table with
    rows appended, the lines are [Omitted row n:] lines of the same form.
    With no row appended the report is the header and the fallback
    line. *)
Theorem appended_rows_reported (ts filename : string) (base extra : Table) :
  Forall (fun row => row <> []) base -> Forall (fun row => row <> []) extra ->
  csvDiffBuilder ts filename base (base ++ extra) =
    [("[" ++ ts ++ "] Diff for " ++ filename ++ nl)%string]
      ++ firstn 10
           (map (fun k => ("Added row " ++ Itoa (List.length base + k + 1) ++ ": "
                            ++ Join (nth k extra []) "," ++ nl)%string)
                (seq 0 (List.length extra)))
      ++ (if Nat.eqb (List.length extra) 0
          then [("No specific changes identified (full content mismatch)" ++ nl)%string]
          else []) /\
  csvDiffBuilder ts filename (base ++ extra) base =
    [("[" ++ ts ++ "] Diff for " ++ filename ++ nl)%string]
      ++ firstn 10
           (map (fun k => ("Omitted row " ++ Itoa (List.length base + k + 1) ++ ": "
                            ++ Join (nth k extra []) "," ++ nl)%string)
                (seq 0 (List.length extra)))
      ++ (if Nat.eqb (List.length extra) 0
          then [("No specific changes identified (full content mismatch)" ++ nl)%string]
          else []).
Proof.
  intros Hbase Hextra.
  change ("[" ++ ts ++ "] Diff for " ++ filename ++ nl)%string with (csvHeader ts filename).
  change ("No specific changes identified (full content mismatch)" ++ nl)%string
    with csvFallback.
  rewrite <- addedRows_lines, <- omittedRows_lines.
  assert (Hmax1 : Nat.max (List.length base) (List.length (base ++ extra)) =
                  List.length base + List.length extra)
    by (rewrite length_app; lia).
  assert (Hmax2 : Nat.max (List.length (base ++ extra)) (List.length base) =
                  List.length base + List.length extra)
    by (rewrite length_app; lia).
  split.
  - rewrite csvDiffBuilder_changes. cbn zeta.
    rewrite Hmax1, seq_app, flat_map_app.
    rewrite flat_map_seq_nil.
    + simpl (0 + _). cbn [app].
      rewrite (changes_of_appended base extra (List.length base) 0) by
        (try lia; intros k Hk; apply rowAt_app_extra).
      now rewrite addedRows_length.
    + intros i Hi. apply rowChange_same.
      * symmetry. apply rowAt_app_base. lia.
      * apply rowAt_nonempty; [exact Hbase | lia].
  - rewrite csvDiffBuilder_changes. cbn zeta.
    rewrite Hmax2, seq_app, flat_map_app.
    rewrite flat_map_seq_nil.
    + simpl (0 + _). cbn [app].
      rewrite (changes_of_removed base extra (List.length base) 0) by
        (try lia; try exact Hextra; intros k Hk; apply rowAt_app_extra).
      now rewrite omittedRows_length.
    + intros i Hi. apply rowChange_same.
      * apply rowAt_app_base. lia.
      * rewrite rowAt_app_base by lia. apply rowAt_nonempty; [exact Hbase | lia].
Qed.

Lemma appended_rows_reported_witness :
  let base := [["stop"; "time"]; ["Main St"; "07:15"]] in
  let extra := [["Depot"; "07:40"]; ["Harbour"; "08:05"]] in
  csvDiffBuilder "t" "stops.csv" base (base ++ extra) =
    [("[t] Diff for stops.csv" ++ nl)%string;
     ("Added row 3: Depot,07:40" ++ nl)%string;
     ("Added row 4: Harbour,08:05" ++ nl)%string] /\
  csvDiffBuilder "t" "stops.csv" (base ++ extra) base =
    [("[t] Diff for stops.csv" ++ nl)%string;
     ("Omitted row 3: Depot,07:40" ++ nl)%string;
     ("Omitted row 4: Harbour,08:05" ++ nl)%string].
Proof.
  intros base extra.
  apply (appended_rows_reported "t" "stops.csv" base extra);
    repeat constructor; discriminate.
Defined.

(** ** LineDiffer reads trimmed lines only *)

Lemma lineAt_beyond (lines : list string) (i : nat) :
  List.length lines <= i -> lineAt lines i = EmptyString.
Proof.
  intros H. unfold lineAt.
  destruct (Nat.ltb i (List.length lines)) eqn:E; [|reflexivity].
  apply Nat.ltb_lt in E. lia.
Qed.

Lemma lineChange_ext (section : string) (ll ll' rl rl' : list string) (i : nat) :
  lineAt ll i = lineAt ll' i -> lineAt rl i = lineAt rl' i ->
  lineChange section ll rl i = lineChange section ll' rl' i.
Proof. intros Hl Hr. unfold lineChange, textLine. now rewrite Hl, Hr. Qed.

Lemma lineChange_blank (section : string) (ll rl : list string) (i : nat) :
  lineAt ll i = EmptyString -> lineAt rl i = EmptyString ->
  lineChange section ll rl i = [].
Proof. intros Hl Hr. unfold lineChange, textLine. now rewrite Hl, Hr. Qed.

Lemma flat_map_seq_ext {B : Type} (f g : nat -> list B) :
  forall n start, (forall i, f i = g i) -> flat_map f (seq start n) = flat_map g (seq start n).
Proof.
  induction n as [|n IH]; intros start H; simpl; [reflexivity|].
  now rewrite H, (IH (S start) H).
Qed.

Lemma flat_map_seq_extend {B : Type} (f : nat -> list B) (n m : nat) :
  n <= m -> (forall i, n <= i -> f i = []) ->
  flat_map f (seq 0 m) = flat_map f (seq 0 n).
Proof.
  intros Hnm H. replace m with (n + (m - n)) by lia.
  rewrite seq_app, flat_map_app, (flat_map_seq_nil f (m - n) (0 + n)), app_nil_r;
    [reflexivity|].
  intros i Hi. apply H. lia.
Qed.

(** The changes of all line indexes, listed up to any bound that covers
    both texts. *)
Lemma lineChanges_upto (section : string) (ll rl : list string) (m : nat) :
  Nat.max (List.length ll) (List.length rl) <= m ->
  flat_map (lineChange section ll rl) (seq 0 m) =
  flat_map (lineChange section ll rl) (seq 0 (Nat.max (List.length ll) (List.length rl))).
Proof.
  intros H. apply flat_map_seq_extend; [exact H|].
  intros i Hi. apply lineChange_blank; apply lineAt_beyond; lia.
Qed.

Lemma textDiffBuilder_ext (localText localText' remoteText remoteText' section : string) :
  (forall i, lineAt (Split localText LF) i = lineAt (Split localText' LF) i) ->
  (forall i, lineAt (Split remoteText LF) i = lineAt (Split remoteText' LF) i) ->
  textDiffBuilder localText remoteText section =
  textDiffBuilder localText' remoteText' section.
Proof.
  intros Hl Hr. rewrite !textDiffBuilder_changes. cbn zeta.
  set (ll := Split localText LF) in *. set (rl := Split remoteText LF) in *.
  set (ll' := Split localText' LF) in *. set (rl' := Split remoteText' LF) in *.
  set (n := Nat.max (List.length ll) (List.length rl)).
  set (n' := Nat.max (List.length ll') (List.length rl')).
  assert (Heq : flat_map (lineChange section ll rl) (seq 0 n) =
                flat_map (lineChange section ll' rl') (seq 0 n')).
  { transitivity (flat_map (lineChange section ll rl) (seq 0 (Nat.max n n'))).
    - symmetry. apply lineChanges_upto. fold n. lia.
    - transitivity (flat_map (lineChange section ll' rl') (seq 0 (Nat.max n n'))).
      + apply flat_map_seq_ext. intros i. apply lineChange_ext; [apply Hl | apply Hr].
      + apply lineChanges_upto. fold n'. lia. }
  now rewrite Heq.
Qed.

(** X4. LineDiffer reads its texts through their trimmed lines only: two
    pairs of texts whose lines agree after trimming, a missing line
    counting as an empty one, get the same report. *)
Theorem linediffer_reads_trimmed_lines
    (localText localText' remoteText remoteText' section : string) :
  (forall i, lineAt (Split localText LF) i = lineAt (Split localText' LF) i) ->
  (forall i, lineAt (Split remoteText LF) i = lineAt (Split remoteText' LF) i) ->
  generateTextDiff localText remoteText section =
  generateTextDiff localText' remoteText' section.
Proof.
  intros Hl Hr. unfold generateTextDiff.
  now rewrite (textDiffBuilder_ext localText localText' remoteText remoteText' section Hl Hr).
Qed.

Lemma linediffer_reads_trimmed_lines_witness :
  let unix := ("Make: Canon" ++ nl ++ "Model: EOS")%string in
  let dos := ("Make: Canon" ++ bytes [13; 10] ++ "  Model: EOS" ++ bytes [13; 10; 32; 10])%string in
  let remote := ("Make: Canon" ++ nl ++ "Model: R5")%string in
  unix <> dos /\
  generateTextDiff unix remote "EXIF" = generateTextDiff dos remote "EXIF".
Proof.
  intros unix dos remote. split; [discriminate|].
  apply (linediffer_reads_trimmed_lines unix dos remote remote "EXIF").
  - intros i. do 5 (destruct i as [|i]; [reflexivity|]). reflexivity.
  - intros i. reflexivity.
Defined.

Lemma Split_nonempty (s : string) (sep : ascii) : Split s sep <> [].
Proof.
  destruct s as [|c s]; simpl; [discriminate|].
  destruct (Ascii.eqb c sep); [discriminate|].
  destruct (Split s sep); discriminate.
Qed.

Lemma Split_app_nl (s : string) : Split (s ++ nl) LF = Split s LF ++ [EmptyString].
Proof.
  induction s as [|c s IH]; [reflexivity|].
  cbn [append Split]. rewrite IH.
  destruct (Ascii.eqb c LF); [reflexivity|].
  destruct (Split s LF) as [|piece rest] eqn:E; [now apply Split_nonempty in E|].
  reflexivity.
Qed.

Lemma lineAt_app_empty (lines : list string) (i : nat) :
  lineAt (lines ++ [EmptyString]) i = lineAt lines i.
Proof.
  unfold lineAt. rewrite length_app. simpl.
  destruct (Nat.lt_ge_cases i (List.length lines)) as [H|H].
  - rewrite app_nth1 by exact H.
    replace (Nat.ltb i (List.length lines + 1)) with true by (symmetry; apply Nat.ltb_lt; lia).
    replace (Nat.ltb i (List.length lines)) with true by (symmetry; apply Nat.ltb_lt; lia).
    reflexivity.
  - replace (Nat.ltb i (List.length lines)) with false by (symmetry; apply Nat.ltb_ge; lia).
    destruct (Nat.ltb i (List.length lines + 1)); [|reflexivity].
    rewrite app_nth2 by exact H.
    destruct (i - List.length lines) as [|[|k]]; reflexivity.
Qed.

(** X5. A line feed at the end of either text is invisible to LineDiffer:
    the report is the one of the texts without it. *)
Theorem trailing_newline_invisible (localText remoteText section : string) :
  generateTextDiff (localText ++ nl) remoteText section =
    generateTextDiff localText remoteText section /\
  generateTextDiff localText (remoteText ++ nl) section =
    generateTextDiff localText remoteText section.
Proof.
  unfold generateTextDiff. split; f_equal; apply textDiffBuilder_ext; intros i;
    try reflexivity; rewrite Split_app_nl; apply lineAt_app_empty.
Qed.

(** ** Exchanging the local and the remote side *)

Lemma countPrefix_write (prefix : string) (b : Builder) (line : string) :
  countPrefix prefix (WriteString b line) =
  countPrefix prefix b + (if HasPrefix line prefix then 1 else 0).
Proof.
  unfold countPrefix, WriteString. rewrite filter_app, length_app. simpl.
  destruct (HasPrefix line prefix); reflexivity.
Qed.

(** One side records an Added line and the other an Omitted line. *)
Lemma mirrored_added_omitted (st st' : DiffState) (added omitted : string) :
  mirrored st st' ->
  HasPrefix added "Added " = true -> HasPrefix added "Omitted " = false ->
  HasPrefix added "Modified " = false ->
  HasPrefix omitted "Omitted " = true -> HasPrefix omitted "Added " = false ->
  HasPrefix omitted "Modified " = false ->
  mirrored (recordAdded st added) (recordOmitted st' omitted) /\
  mirrored (recordOmitted st omitted) (recordAdded st' added).
Proof.
  intros (Ht & Ha & Ho & Hm) A1 A2 A3 O1 O2 O3.
  split; unfold mirrored;
    rewrite ?tally_recordAdded, ?tally_recordOmitted; cbn [diff recordAdded recordOmitted];
    rewrite !countPrefix_write, ?A1, ?A2, ?A3, ?O1, ?O2, ?O3; repeat split; lia.
Qed.

Lemma mirrored_modified (st st' : DiffState) (line line' : string) :
  mirrored st st' ->
  HasPrefix line "Modified " = true -> HasPrefix line "Added " = false ->
  HasPrefix line "Omitted " = false ->
  HasPrefix line' "Modified " = true -> HasPrefix line' "Added " = false ->
  HasPrefix line' "Omitted " = false ->
  mirrored (recordModified st line) (recordModified st' line').
Proof.
  intros (Ht & Ha & Ho & Hm) M1 M2 M3 N1 N2 N3.
  unfold mirrored. rewrite !tally_recordModified. cbn [diff recordModified].
  rewrite !countPrefix_write, ?M1, ?M2, ?M3, ?N1, ?N2, ?N3. repeat split; lia.
Qed.

Lemma textLine_mirrored (section : string) (ll rl : list string) (i : nat)
    (st st' : DiffState) :
  mirrored st st' ->
  mirrored (textLine section ll rl i st) (textLine section rl ll i st').
Proof.
  intros H. unfold textLine. rewrite (String.eqb_sym (lineAt rl i) (lineAt ll i)).
  destruct (String.eqb (lineAt ll i) EmptyString);
    destruct (String.eqb (lineAt rl i) EmptyString); simpl.
  - destruct (String.eqb (lineAt ll i) (lineAt rl i)); simpl; [exact H|].
    now apply mirrored_modified.
  - now apply mirrored_added_omitted.
  - now apply mirrored_added_omitted.
  - destruct (String.eqb (lineAt ll i) (lineAt rl i)); simpl; [exact H|].
    now apply mirrored_modified.
Qed.

Lemma textLines_mirrored (section : string) (ll rl : list string) :
  forall n i st st',
    mirrored st st' ->
    mirrored (textLines section ll rl n i st) (textLines section rl ll n i st').
Proof.
  induction n as [|n IH]; intros i st st' H; simpl; [exact H|].
  destruct H as (Ht & H). rewrite <- Ht.
  destruct (Nat.ltb (tally st) maxDiffChanges); [|now split].
  apply IH, textLine_mirrored. now split.
Qed.

Lemma mirrored_finish (st st' : DiffState) (fallback fallback' : string) :
  mirrored st st' ->
  isChangeLine fallback = false -> isChangeLine fallback' = false ->
  let report := if Nat.eqb (tally st) 0 then WriteString (diff st) fallback else diff st in
  let report' := if Nat.eqb (tally st') 0 then WriteString (diff st') fallback' else diff st' in
  countPrefix "Added " report = countPrefix "Omitted " report' /\
  countPrefix "Omitted " report = countPrefix "Added " report' /\
  countPrefix "Modified " report = countPrefix "Modified " report'.
Proof.
  intros (Ht & Ha & Ho & Hm) Hf Hf' report report'. unfold report, report'.
  rewrite <- Ht.
  unfold isChangeLine in Hf, Hf'.
  apply orb_false_iff in Hf. destruct Hf as [Hf F3].
  apply orb_false_iff in Hf. destruct Hf as [F1 F2].
  apply orb_false_iff in Hf'. destruct Hf' as [Hf' G3].
  apply orb_false_iff in Hf'. destruct Hf' as [G1 G2].
  destruct (Nat.eqb (tally st) 0).
  - rewrite !countPrefix_write, F1, F2, F3, G1, G2, G3. repeat split; lia.
  - repeat split; assumption.
Qed.

(** X6. Exchanging the two texts exchanges the Added and the Omitted lines
    of the report of LineDiffer, count for count, and keeps the number of
    Modified lines. *)
Theorem linediffer_exchange (localText remoteText section : string) :
  let report := textDiffBuilder localText remoteText section in
  let exchanged := textDiffBuilder remoteText localText section in
  countPrefix "Added " report = countPrefix "Omitted " exchanged /\
  countPrefix "Omitted " report = countPrefix "Added " exchanged /\
  countPrefix "Modified " report = countPrefix "Modified " exchanged.
Proof.
  intros report exchanged. unfold report, exchanged, textDiffBuilder.
  apply mirrored_finish; try apply isChangeLine_textFallback.
  unfold textLoop.
  rewrite (Nat.max_comm (List.length (Split remoteText LF))).
  apply textLines_mirrored. repeat split.
Qed.

Lemma compareFields_mirrored (i : nat) (localRow remoteRow : Row) :
  forall n j st st',
    mirrored st st' ->
    mirrored (compareFields i localRow remoteRow n j st)
             (compareFields i remoteRow localRow n j st').
Proof.
  induction n as [|n IH]; intros j st st' H; simpl; [exact H|].
  rewrite (String.eqb_sym (fieldAt remoteRow j) (fieldAt localRow j)).
  destruct (String.eqb (fieldAt localRow j) (fieldAt remoteRow j)); simpl.
  - now apply IH.
  - now apply mirrored_modified.
Qed.

Lemma csvRow_mirrored (localCSV remoteCSV : Table) (i : nat) (st st' : DiffState) :
  rowAt localCSV i <> [] \/ rowAt remoteCSV i <> [] ->
  mirrored st st' ->
  mirrored (csvRow localCSV remoteCSV i st) (csvRow remoteCSV localCSV i st').
Proof.
  intros Hrows H. unfold csvRow.
  destruct (rowAt localCSV i) as [|lf lrow] eqn:El;
    destruct (rowAt remoteCSV i) as [|rf rrow] eqn:Er; cbn [List.length Nat.eqb].
  - destruct Hrows as [Hr|Hr]; now elim Hr.
  - now apply mirrored_added_omitted.
  - now apply mirrored_added_omitted.
  - rewrite (Nat.max_comm (S (List.length rrow))). now apply compareFields_mirrored.
Qed.

Lemma csvRows_mirrored (localCSV remoteCSV : Table) :
  forall n i st st',
    (forall k, i <= k < i + n -> rowAt localCSV k <> [] \/ rowAt remoteCSV k <> []) ->
    mirrored st st' ->
    mirrored (csvRows localCSV remoteCSV n i st) (csvRows remoteCSV localCSV n i st').
Proof.
  induction n as [|n IH]; intros i st st' Hrows H; simpl; [exact H|].
  destruct H as (Ht & H). rewrite <- Ht.
  destruct (Nat.ltb (tally st) maxDiffChanges); [|now split].
  apply IH.
  - intros k Hk. apply Hrows. lia.
  - apply csvRow_mirrored; [apply Hrows; lia | now split].
Qed.

(** X7. When no row of either table is without fields, exchanging the two
    tables exchanges the Added and the Omitted lines of the report of
    RowDiffer, count for count, and keeps the number of Modified lines. *)
Theorem rowdiffer_exchange (ts filename : string) (localCSV remoteCSV : Table) :
  Forall (fun row => row <> []) localCSV -> Forall (fun row => row <> []) remoteCSV ->
  let report := csvDiffBuilder ts filename localCSV remoteCSV in
  let exchanged := csvDiffBuilder ts filename remoteCSV localCSV in
  countPrefix "Added " report = countPrefix "Omitted " exchanged /\
  countPrefix "Omitted " report = countPrefix "Added " exchanged /\
  countPrefix "Modified " report = countPrefix "Modified " exchanged.
Proof.
  intros Hl Hr report exchanged. unfold report, exchanged, csvDiffBuilder.
  apply mirrored_finish; try apply isChangeLine_csvFallback.
  unfold csvLoop.
  rewrite (Nat.max_comm (List.length remoteCSV)).
  apply csvRows_mirrored; [|repeat split].
  intros k Hk.
  destruct (Nat.lt_ge_cases k (List.length localCSV)) as [H|H].
  - left. now apply rowAt_nonempty.
  - right. apply rowAt_nonempty; [exact Hr | lia].
Qed.

Lemma rowdiffer_exchange_witness :
  let localCSV := [["stop"; "time"]; ["Main St"; "07:15"]; ["Depot"; "07:40"]] in
  let remoteCSV := [["stop"; "time"]; ["Main St"; "07:20"]] in
  let report := csvDiffBuilder Sample.ts "stops.csv" localCSV remoteCSV in
  let exchanged := csvDiffBuilder Sample.ts "stops.csv" remoteCSV localCSV in
  countPrefix "Omitted " report = 1 /\
  countPrefix "Added " report = countPrefix "Omitted " exchanged /\
  countPrefix "Omitted " report = countPrefix "Added " exchanged /\
  countPrefix "Modified " report = countPrefix "Modified " exchanged.
Proof.
  intros localCSV remoteCSV report exchanged. split; [reflexivity|].
  apply (rowdiffer_exchange Sample.ts "stops.csv" localCSV remoteCSV);
    repeat constructor; discriminate.
Defined.

(** ** No report is empty *)

Lemma BuilderString_cons (x : string) (b : Builder) :
  BuilderString (x :: b) = (x ++ BuilderString b)%string.
Proof. exact (BuilderString_app [x] b). Qed.

Lemma append_nonempty_l (a b : string) : a <> EmptyString -> (a ++ b)%string <> EmptyString.
Proof. destruct a; simpl; [congruence | discriminate]. Qed.

Lemma isChangeLine_nonempty (chunk : string) : isChangeLine chunk = true -> chunk <> EmptyString.
Proof. intros H ->. discriminate. Qed.

Lemma csvDiff_nonempty (ts filename : string) (localCSV remoteCSV : Table) :
  BuilderString (csvDiffBuilder ts filename localCSV remoteCSV) <> EmptyString.
Proof.
  rewrite csvDiffBuilder_changes. cbn zeta. cbn [app].
  rewrite BuilderString_cons. apply append_nonempty_l. discriminate.
Qed.

Lemma generateTextDiff_nonempty (localText remoteText section : string) :
  generateTextDiff localText remoteText section <> EmptyString.
Proof.
  unfold generateTextDiff.
  destruct (textLoop_itemised localText remoteText section) as [(details & Hd & Hlen & Hall) _].
  unfold textDiffBuilder. rewrite <- Hlen, Hd. cbn [app].
  destruct details as [|line details]; simpl (Nat.eqb _ _); cbv iota.
  - unfold WriteString. cbn [app]. rewrite BuilderString_one. discriminate.
  - rewrite BuilderString_cons. apply append_nonempty_l, isChangeLine_nonempty.
    now inversion Hall.
Qed.

Lemma generateCSVDiff_nonempty (w : World) (localPath remoteData ts filename : string) :
  generateCSVDiff w localPath remoteData ts filename <> EmptyString.
Proof.
  unfold generateCSVDiff.
  destruct (parseCSV w localPath); [|discriminate].
  destruct (parseCSVFromBytes w remoteData); [|discriminate].
  apply csvDiff_nonempty.
Qed.

Lemma generatePDFDiff_nonempty (w : World) (localPath remoteData ts filename : string) :
  generatePDFDiff w localPath remoteData ts filename <> EmptyString.
Proof. discriminate. Qed.

Lemma generateImageDiff_nonempty (w : World) (localPath remoteData : string)
    (localExif remoteExif localOcr remoteOcr : string)
    (localExifErr remoteExifErr localOcrErr remoteOcrErr : option string)
    (ts filename : string) :
  generateImageDiff w localPath remoteData localExif remoteExif localOcr remoteOcr
    localExifErr remoteExifErr localOcrErr remoteOcrErr ts filename <> EmptyString.
Proof. rewrite imageDiff_sections. discriminate. Qed.

Lemma itemDiff_nonempty (w : World) (localPath body ts name : string) :
  itemDiff w localPath body ts name <> EmptyString.
Proof.
  unfold itemDiff.
  destruct (String.eqb _ ".csv"); [apply generateCSVDiff_nonempty|].
  destruct (String.eqb _ ".pdf"); [apply generatePDFDiff_nonempty|].
  apply generateImageDiff_nonempty.
Qed.

Lemma truncateDiff_nonempty (d : string) : d <> EmptyString -> truncateDiff d <> EmptyString.
Proof.
  intros H. unfold truncateDiff.
  destruct (Nat.ltb maxDiffChars (String.length d)); [|exact H].
  apply append_nonempty_r. discriminate.
Qed.

(** X8. No differ returns the empty string: the report of RowDiffer, also
    when a table does not parse, the report of OpaqueDiffer, the report of
    LineDiffer and the report of the reconciler each hold at least one
    byte. *)
Theorem differs_never_empty (w : World) (localPath remoteData ts filename : string)
    (localText remoteText section : string)
    (localExif remoteExif localOcr remoteOcr : string)
    (localExifErr remoteExifErr localOcrErr remoteOcrErr : option string) :
  generateCSVDiff w localPath remoteData ts filename <> EmptyString /\
  generatePDFDiff w localPath remoteData ts filename <> EmptyString /\
  generateTextDiff localText remoteText section <> EmptyString /\
  generateImageDiff w localPath remoteData localExif remoteExif localOcr remoteOcr
    localExifErr remoteExifErr localOcrErr remoteOcrErr ts filename <> EmptyString.
Proof.
  split; [apply generateCSVDiff_nonempty|].
  split; [apply generatePDFDiff_nonempty|].
  split; [apply generateTextDiff_nonempty | apply generateImageDiff_nonempty].
Qed.

(** X9. Every entry of the log of a cycle holds at least one byte. *)
Theorem log_entries_nonempty (w : World) (interval : nat) (runningDir ts : string)
    (c : Cycle) :
  runCycle w interval runningDir ts = Some c ->
  Forall (fun entry => entry <> EmptyString) (shiftLog c).
Proof.
  intros Hrun. unfold runCycle in Hrun.
  destruct (Readdirnames w runningDir) as [names|]; [|discriminate].
  injection Hrun as <-.
  apply runItems_shiftLog.
  - intros name status url. discriminate.
  - intros localPath body name. apply truncateDiff_nonempty, itemDiff_nonempty.
  - constructor.
Qed.

Lemma log_entries_nonempty_witness :
  exists c,
    runCycle Sample.drifted 60 Sample.dir Sample.ts = Some c /\
    List.length (shiftLog c) = 1 /\
    Forall (fun entry => entry <> EmptyString) (shiftLog c).
Proof.
  eexists.
  assert (Hrun : runCycle Sample.drifted 60 Sample.dir Sample.ts =
                 Some (runItems Sample.drifted Sample.ts Sample.dir 0
                         (monitored Sample.drifted Sample.dir ["map.png"]) (mkCycle [] [])))
    by reflexivity.
  split; [exact Hrun|]. split; [vm_compute; reflexivity|].
  exact (log_entries_nonempty Sample.drifted 60 Sample.dir Sample.ts _ Hrun).
Defined.

(** ** Cycles *)

Lemma complete_of_synced (w : World) (runningDir : string) (i : nat) (name : string) :
  synced w runningDir i name -> complete w runningDir i name.
Proof.
  intros (resp & body & H1 & H2 & H3 & H4 & H5). exists resp, body, body. auto.
Qed.

Lemma runItem_synced (w : World) (ts runningDir : string) (i : nat) (name : string)
    (c : Cycle) :
  synced w runningDir i name ->
  shiftLog (runItem w ts runningDir i name c) = shiftLog c.
Proof.
  intros (resp & body & Hreq & Hdo & Hstatus & Hbody & Hread).
  unfold runItem, itemBody, fileHash.
  rewrite Hreq, Hdo, Hstatus, Hbody, Hread. simpl.
  now rewrite String.eqb_refl.
Qed.

Lemma runItems_synced (w : World) (ts runningDir : string) :
  forall names i c,
    (forall k name, nth_error names k = Some name -> synced w runningDir (i + k) name) ->
    shiftLog (runItems w ts runningDir i names c) = shiftLog c.
Proof.
  induction names as [|name rest IH]; intros i c Hall; simpl; [reflexivity|].
  rewrite IH.
  - apply runItem_synced. specialize (Hall 0 name eq_refl). now rewrite Nat.add_0_r in Hall.
  - intros k name' Hk. replace (S i + k) with (i + S k) by lia. now apply Hall.
Qed.

(** X10. A cycle in which every monitored file is fetched with status 200
    and its remote bytes are the bytes of the local file logs nothing, and
    its builder holds the fingerprint of every monitored file, in order. *)
Theorem synced_cycle_logs_nothing (w : World) (interval : nat) (runningDir ts : string)
    (names : list string) :
  Readdirnames w runningDir = Ok names ->
  (forall k name, nth_error (monitored w runningDir names) k = Some name ->
                  synced w runningDir k name) ->
  exists c,
    runCycle w interval runningDir ts = Some c /\
    shiftLog c = [] /\
    unifiedBuilder c = itemFingerprints w 0 (monitored w runningDir names).
Proof.
  intros Hdir Hall. unfold runCycle. rewrite Hdir. eexists. split; [reflexivity|]. split.
  - rewrite runItems_synced; [reflexivity | exact Hall].
  - rewrite runItems_complete; [reflexivity|].
    intros k name Hk. apply complete_of_synced. now apply Hall.
Qed.

Lemma synced_cycle_logs_nothing_witness :
  exists c,
    runCycle Cases.inSync 60 Sample.dir Sample.ts = Some c /\
    shiftLog c = [] /\
    unifiedBuilder c =
      itemFingerprints Cases.inSync 0
        (monitored Cases.inSync Sample.dir ["stops.csv"; "notes.txt"; "plan.pdf"]).
Proof.
  apply (synced_cycle_logs_nothing Cases.inSync 60 Sample.dir Sample.ts
           ["stops.csv"; "notes.txt"; "plan.pdf"] eq_refl).
  intros k name Hk.
  change (monitored Cases.inSync Sample.dir ["stops.csv"; "notes.txt"; "plan.pdf"])
    with ["plan.pdf"; "stops.csv"] in Hk.
  destruct k as [|[|k]]; simpl in Hk.
  - injection Hk as <-.
    exists (mkResponse 200 (Ok "%PDF-1.4 plan")), "%PDF-1.4 plan". repeat split.
  - injection Hk as <-.
    exists (mkResponse 200 (Ok "stop,time")), "stop,time". repeat split.
  - destruct k; discriminate.
Defined.

(** X11. When every monitored file is fetched with status 200 and its local
    copy can be read, the aggregate fingerprint of the cycle is the
    fingerprint of the concatenation of the fingerprints of the remote
    bytes of all monitored files, in sorted order. *)
Theorem aggregate_of_complete_cycle (w : World) (interval : nat) (runningDir ts : string)
    (names : list string) :
  Readdirnames w runningDir = Ok names ->
  (forall k name, nth_error (monitored w runningDir names) k = Some name ->
                  complete w runningDir k name) ->
  exists c,
    runCycle w interval runningDir ts = Some c /\
    Some (unifiedHash c) = claimedAggregate w runningDir.
Proof.
  intros Hdir Hall. unfold runCycle, claimedAggregate. rewrite Hdir.
  eexists. split; [reflexivity|].
  unfold unifiedHash. rewrite runItems_complete by exact Hall. reflexivity.
Qed.

Lemma aggregate_of_complete_cycle_witness :
  exists c,
    runCycle Cases.inSync 60 Sample.dir Sample.ts = Some c /\
    Some (unifiedHash c) = claimedAggregate Cases.inSync Sample.dir.
Proof.
  apply (aggregate_of_complete_cycle Cases.inSync 60 Sample.dir Sample.ts
           ["stops.csv"; "notes.txt"; "plan.pdf"] eq_refl).
  intros k name Hk.
  change (monitored Cases.inSync Sample.dir ["stops.csv"; "notes.txt"; "plan.pdf"])
    with ["plan.pdf"; "stops.csv"] in Hk.
  destruct k as [|[|k]]; simpl in Hk.
  - injection Hk as <-.
    exists (mkResponse 200 (Ok "%PDF-1.4 plan")), "%PDF-1.4 plan", "%PDF-1.4 plan".
    repeat split.
  - injection Hk as <-.
    exists (mkResponse 200 (Ok "stop,time")), "stop,time", "stop,time". repeat split.
  - destruct k; discriminate.
Defined.

(** One turn appends at most one fingerprint, that of a body received with
    status 200. *)
Lemma runItem_unifiedBuilder (w : World) (ts runningDir : string) (i : nat)
    (name : string) (c : Cycle) :
  unifiedBuilder (runItem w ts runningDir i name c) = unifiedBuilder c \/
  exists resp body,
    Do w (baseURL ++ PathEscape w name ++ "?t=" ++ randomTimestamp w i) = Ok resp /\
    StatusCode resp = StatusOK /\ Body resp = Ok body /\
    unifiedBuilder (runItem w ts runningDir i name c) = unifiedBuilder c ++ [sha256Hex body].
Proof.
  unfold runItem, itemBody.
  destruct (NewRequest w _); [now left|].
  destruct (Do w _) as [resp|] eqn:Hdo; [|now left].
  destruct (Nat.eqb (StatusCode resp) StatusOK) eqn:Hs; simpl; [|now left].
  apply Nat.eqb_eq in Hs.
  destruct (Body resp) as [body|] eqn:Hb; [|now left].
  destruct (fileHash w _) as [localHash|]; [|now left].
  right. exists resp, body. repeat split; try assumption.
  destruct (String.eqb (sha256Hex body) localHash); reflexivity.
Qed.

Lemma runItems_sizes (w : World) (ts runningDir : string) :
  forall names i c,
    let c' := runItems w ts runningDir i names c in
    List.length (shiftLog c') <= List.length (shiftLog c) + List.length names /\
    List.length (unifiedBuilder c') <= List.length (unifiedBuilder c) + List.length names /\
    (Forall (fun h => String.length h = 64) (unifiedBuilder c) ->
     Forall (fun h => String.length h = 64) (unifiedBuilder c')).
Proof.
  induction names as [|name rest IH]; intros i c; cbn zeta; simpl.
  - repeat split; try lia. trivial.
  - destruct (IH (S i) (runItem w ts runningDir i name c)) as (Hlog & Hub & Hhex).
    cbn zeta in Hlog, Hub, Hhex.
    assert (Hl1 : List.length (shiftLog (runItem w ts runningDir i name c)) <=
                  S (List.length (shiftLog c))).
    { destruct (runItem_shiftLog w ts runningDir i name c)
        as [-> | [(s & u & ->) | (p & b & ->)]]; rewrite ?length_app; simpl; lia. }
    assert (Hu1 : List.length (unifiedBuilder (runItem w ts runningDir i name c)) <=
                  S (List.length (unifiedBuilder c)) /\
                  (Forall (fun h => String.length h = 64) (unifiedBuilder c) ->
                   Forall (fun h => String.length h = 64)
                          (unifiedBuilder (runItem w ts runningDir i name c)))).
    { destruct (runItem_unifiedBuilder w ts runningDir i name c)
        as [-> | (resp & body & _ & _ & _ & ->)].
      - split; [lia | trivial].
      - rewrite length_app. simpl. split; [lia|].
        intros H. apply Forall_app. split; [exact H|].
        constructor; [apply sha256Hex_length | constructor]. }
    destruct Hu1 as [Hu1 Hh1].
    repeat split; try lia. intros H. apply Hhex, Hh1, H.
Qed.

Lemma BuilderString_length (b : Builder) (n : nat) :
  Forall (fun h => String.length h = n) b ->
  String.length (BuilderString b) = n * List.length b.
Proof.
  induction 1 as [|h b Hh _ IH].
  - simpl. lia.
  - rewrite BuilderString_cons, length_append, Hh, IH. simpl. lia.
Qed.

(** X12. A cycle over [n] monitored files logs at most [n] entries and
    feeds at most [n] fingerprints to the aggregate, each of 64 bytes, so
    that the text hashed for the aggregate has 64 bytes for each
    fingerprint. *)
Theorem cycle_sizes (w : World) (interval : nat) (runningDir ts : string)
    (names : list string) (c : Cycle) :
  Readdirnames w runningDir = Ok names ->
  runCycle w interval runningDir ts = Some c ->
  let n := List.length (monitored w runningDir names) in
  List.length (shiftLog c) <= n /\
  List.length (unifiedBuilder c) <= n /\
  String.length (BuilderString (unifiedBuilder c)) = 64 * List.length (unifiedBuilder c).
Proof.
  intros Hdir Hrun n. unfold runCycle in Hrun. rewrite Hdir in Hrun.
  injection Hrun as <-.
  destruct (runItems_sizes w ts runningDir (monitored w runningDir names) 0 (mkCycle [] []))
    as (Hlog & Hub & Hhex).
  cbn zeta in Hlog, Hub, Hhex. simpl in Hlog, Hub.
  repeat split; try assumption.
  apply BuilderString_length, Hhex. constructor.
Qed.

Lemma cycle_sizes_witness :
  exists c,
    runCycle Sample.drifted 60 Sample.dir Sample.ts = Some c /\
    List.length (shiftLog c) <= 1 /\
    List.length (unifiedBuilder c) <= 1 /\
    String.length (BuilderString (unifiedBuilder c)) = 64 * List.length (unifiedBuilder c).
Proof.
  eexists.
  assert (Hrun : runCycle Sample.drifted 60 Sample.dir Sample.ts =
                 Some (runItems Sample.drifted Sample.ts Sample.dir 0
                         (monitored Sample.drifted Sample.dir ["map.png"]) (mkCycle [] [])))
    by reflexivity.
  split; [exact Hrun|].
  exact (cycle_sizes Sample.drifted 60 Sample.dir Sample.ts ["map.png"] _ eq_refl Hrun).
Defined.

(** ** The directory scan *)

Lemma hasSeparator_app_sep (p s : string) :
  hasSeparator (p ++ String "/"%char s) = true.
Proof.
  induction p as [|c p IH]; cbn [append hasSeparator].
  - reflexivity.
  - rewrite IH. apply orb_true_r.
Qed.

Lemma Base_after_separator (p name : string) :
  hasSeparator name = false -> Base (p ++ String "/"%char name) = name.
Proof.
  intros H. induction p as [|c p IH]; cbn [append Base].
  - now rewrite H.
  - now rewrite hasSeparator_app_sep.
Qed.

Lemma HasSuffix_separator (s : string) :
  HasSuffix s "/" = true -> exists p, s = (p ++ "/")%string.
Proof.
  induction s as [|c s IH]; [discriminate|].
  destruct s as [|d s'].
  - unfold HasSuffix. simpl. intros H.
    destruct (Ascii.eqb_spec c "/"%char) as [->|]; [|discriminate].
    exists EmptyString. reflexivity.
  - intros H.
    assert (Hs : HasSuffix (String d s') "/" = true).
    { unfold HasSuffix in *. cbn [String.length Nat.leb Nat.sub] in *.
      rewrite Nat.sub_0_r in *. simpl in H. simpl. exact H. }
    destruct (IH Hs) as [p Hp]. exists (String c p). simpl. now rewrite Hp.
Qed.

Lemma Base_filepathJoin (dir name : string) :
  hasSeparator name = false -> Base (filepathJoin dir name) = name.
Proof.
  intros H. unfold filepathJoin.
  destruct (HasSuffix dir "/") eqn:E.
  - destruct (HasSuffix_separator dir E) as [p ->].
    rewrite append_assoc. now apply Base_after_separator.
  - now apply Base_after_separator.
Qed.

Lemma map_Base_join (dir : string) (names : list string) :
  Forall (fun name => hasSeparator name = false) names ->
  map Base (map (filepathJoin dir) names) = names.
Proof.
  induction 1 as [|name names Hn _ IH]; simpl; [reflexivity|].
  now rewrite Base_filepathJoin, IH.
Qed.

(** The three lists of the scan are the three kinds of names, each in
    directory order. *)
Lemma scan_lists (w : World) (runningDir : string) :
  forall names sc,
    let sc' := fold_left (scanName w runningDir) names sc in
    csvFiles sc' = csvFiles sc ++ map (filepathJoin runningDir) (filter (isCSVName w) names) /\
    pdfFiles sc' = pdfFiles sc ++ map (filepathJoin runningDir) (filter (isPDFName w) names) /\
    imageFiles sc' =
      imageFiles sc ++ map (filepathJoin runningDir) (filter (isImageName w) names).
Proof.
  induction names as [|name names IH]; intros sc; cbn zeta.
  - simpl. now rewrite !app_nil_r.
  - cbn [fold_left filter].
    destruct (IH (scanName w runningDir sc name)) as (Hc & Hp & Hi).
    cbn zeta in Hc, Hp, Hi. rewrite Hc, Hp, Hi.
    unfold scanName, isPDFName, isImageName, isCSVName.
    destruct (String.eqb (ToLower w (Ext name)) ".csv"); simpl.
    { repeat split; rewrite <- ?app_assoc; reflexivity. }
    destruct (String.eqb (ToLower w (Ext name)) ".pdf"); simpl.
    { repeat split; rewrite <- ?app_assoc; reflexivity. }
    destruct (isMapImage w name (ToLower w (Ext name))); simpl;
      repeat split; rewrite <- ?app_assoc; reflexivity.
Qed.

Lemma baselineFiles_acc (w : World) :
  forall names acc,
    fold_left (baselineName w) names acc = acc ++ filter (selected w) names.
Proof.
  induction names as [|name names IH]; intros acc; simpl.
  - now rewrite app_nil_r.
  - rewrite IH. unfold baselineName, selected, isPDFName, isImageName, isCSVName.
    destruct (String.eqb (ToLower w (Ext name)) ".csv"); simpl.
    { now rewrite <- app_assoc. }
    destruct (String.eqb (ToLower w (Ext name)) ".pdf"); simpl.
    { now rewrite <- app_assoc. }
    destruct (isMapImage w name (ToLower w (Ext name))); simpl;
      now rewrite <- ?app_assoc.
Qed.

Lemma kinds_partition (w : World) (names : list string) :
  Permutation
    (filter (isCSVName w) names ++ filter (isPDFName w) names ++ filter (isImageName w) names)
    (filter (selected w) names).
Proof.
  induction names as [|name names IH]; simpl; [constructor|].
  unfold selected, isPDFName, isImageName.
  destruct (isCSVName w name); simpl.
  { now constructor. }
  destruct (String.eqb (ToLower w (Ext name)) ".pdf"); simpl.
  { symmetry. apply Permutation_cons_app. now symmetry. }
  destruct (isMapImage w name (ToLower w (Ext name))); simpl; [|exact IH].
  symmetry. rewrite app_assoc. apply Permutation_cons_app. rewrite <- app_assoc. now symmetry.
Qed.

Lemma insertSorted_perm (x : string) (l : list string) :
  Permutation (insertSorted x l) (x :: l).
Proof.
  induction l as [|y l IH]; simpl; [reflexivity|].
  destruct (String.leb x y); [reflexivity|].
  rewrite IH. apply perm_swap.
Qed.

Lemma sortStrings_perm (l : list string) : Permutation (sortStrings l) l.
Proof.
  induction l as [|x l IH]; simpl; [constructor|].
  rewrite insertSorted_perm. now constructor.
Qed.

Lemma leb_false_flip (x y : string) : String.leb x y = false -> String.leb y x = true.
Proof. intros H. destruct (String.leb_total x y) as [H'|H']; congruence. Qed.

Lemma insertSorted_sorted (x : string) (l : list string) :
  Sorted byteLe l -> Sorted byteLe (insertSorted x l).
Proof.
  induction 1 as [|y l Hl IH Hhd]; simpl.
  - repeat constructor.
  - destruct (String.leb x y) eqn:E.
    + constructor; [now constructor | now constructor].
    + constructor; [exact IH|].
      apply leb_false_flip in E.
      destruct l as [|z l]; simpl.
      * now constructor.
      * destruct (String.leb x z); constructor; [exact E | now inversion Hhd].
Qed.

Lemma sortStrings_sorted (l : list string) : Sorted byteLe (sortStrings l).
Proof.
  induction l as [|x l IH]; simpl; [constructor | now apply insertSorted_sorted].
Qed.

(** X13. The files of a cycle are the directory entries with extension
    [.csv] or [.pdf], or with an image extension and [map] in the name, each
    as often as the directory lists it; they are visited in ascending byte
    order, and they are the files that baseline mode fetches, which it
    visits in directory order. *)
Theorem monitored_sorted_selection (w : World) (runningDir : string)
    (names : list string) :
  Forall (fun name => hasSeparator name = false) names ->
  Sorted byteLe (monitored w runningDir names) /\
  Permutation (monitored w runningDir names) (filter (selected w) names) /\
  baselineFiles w names = filter (selected w) names.
Proof.
  intros Hclean. split; [apply sortStrings_sorted|]. split.
  - unfold monitored.
    destruct (scan_lists w runningDir names (mkScan [] [] [])) as (Hc & Hp & Hi).
    cbn zeta in Hc, Hp, Hi. rewrite Hc, Hp, Hi. cbn [csvFiles pdfFiles imageFiles app].
    rewrite sortStrings_perm.
    rewrite !map_Base_join by (apply Forall_forall; intros x Hx;
      apply filter_In in Hx; destruct Hx as [Hx _];
      rewrite Forall_forall in Hclean; now apply Hclean).
    apply kinds_partition.
  - unfold baselineFiles. now rewrite baselineFiles_acc.
Qed.

Lemma monitored_sorted_selection_witness :
  let w := Sample.world [] Sample.noFile (fun _ => Err "offline") Sample.noExif Sample.noExif in
  let names := ["stops.CSV"; "readme.md"; "city-map.png"; "photo.png"; "plan.pdf"] in
  monitored w Sample.dir names = ["city-map.png"; "plan.pdf"; "stops.CSV"] /\
  Sorted byteLe (monitored w Sample.dir names) /\
  Permutation (monitored w Sample.dir names) (filter (selected w) names) /\
  baselineFiles w names = filter (selected w) names.
Proof.
  intros w names. split; [reflexivity|].
  apply (monitored_sorted_selection w Sample.dir names).
  repeat constructor.
Defined.

(** ** Baseline mode *)

Lemma baselineItem_fetched (w : World) (runningDir : string) (i : nat) (name : string) :
  match baselineItem w runningDir i name with
  | Some (path, body) => path = filepathJoin runningDir name /\ fetchedWith w i name body
  | None => forall body, ~ fetchedWith w i name body
  end.
Proof.
  unfold baselineItem, fetchedWith. cbn zeta.
  destruct (NewRequest w _) as [e|].
  { intros body [H _]. discriminate. }
  destruct (Do w _) as [resp|e].
  2:{ intros body (_ & resp & H & _). discriminate. }
  destruct (Nat.eqb (StatusCode resp) StatusOK) eqn:Hs; cbn [negb].
  2:{ intros body (_ & resp' & H & Hst & _). injection H as <-.
      apply Nat.eqb_neq in Hs. contradiction. }
  apply Nat.eqb_eq in Hs.
  destruct (Body resp) as [b|e] eqn:Hb.
  - split; [reflexivity|]. split; [reflexivity|]. exists resp. auto.
  - intros body (_ & resp' & H & _ & Hbody). injection H as <-. congruence.
Qed.

Lemma nth_error_later {A : Type} (x : A) (l : list A) (i k : nat) :
  S i <= k -> nth_error (x :: l) (k - i) = nth_error l (k - S i).
Proof. intros H. now replace (k - i) with (S (k - S i)) by lia. Qed.

(** The writes of the loop started at index [i]: one for each index from
    [i] on whose entry is fetched, in the order of the indices. *)
Lemma baselineItems_fetched (w : World) (runningDir : string) :
  forall files i,
    exists ks,
      StronglySorted lt ks /\
      Forall (fun k => i <= k) ks /\
      Forall2 (fun k write =>
                 i <= k /\
                 exists name body,
                   nth_error files (k - i) = Some name /\
                   fetchedWith w k name body /\
                   write = (filepathJoin runningDir name, body))
              ks (baselineItems w runningDir i files) /\
      (forall k name body,
          i <= k -> nth_error files (k - i) = Some name ->
          fetchedWith w k name body -> In k ks).
Proof.
  induction files as [|name rest IH]; intros i.
  - exists []. repeat split; try constructor.
    intros k name body _ H. now destruct (k - i).
  - destruct (IH (S i)) as (ks & Hsorted & Hfrom & Hwrites & Hall).
    assert (Hlater :
      Forall2 (fun k write =>
                 i <= k /\
                 exists name0 body,
                   nth_error (name :: rest) (k - i) = Some name0 /\
                   fetchedWith w k name0 body /\
                   write = (filepathJoin runningDir name0, body))
              ks (baselineItems w runningDir (S i) rest)).
    { revert Hwrites. apply Forall2_impl.
      intros k write (Hk & name0 & body & Hnth & Hrest).
      split; [lia|]. exists name0, body. now rewrite nth_error_later. }
    assert (Hfrom' : Forall (fun k => i <= k) ks).
    { revert Hfrom. apply Forall_impl. intros k Hk. lia. }
    pose proof (baselineItem_fetched w runningDir i name) as Hitem.
    cbn [baselineItems].
    destruct (baselineItem w runningDir i name) as [[path body]|].
    + destruct Hitem as [-> Hfetched].
      exists (i :: ks). split; [|split; [|split]].
      * constructor; [exact Hsorted|].
        revert Hfrom. apply Forall_impl. intros k Hk. lia.
      * constructor; [lia | exact Hfrom'].
      * constructor; [|exact Hlater].
        split; [lia|]. exists name, body. rewrite Nat.sub_diag. auto.
      * intros k name0 body0 Hk Hnth Hf.
        destruct (Nat.eq_dec k i) as [->|Hne]; [now left|].
        right. rewrite nth_error_later in Hnth by lia.
        apply (Hall k name0 body0); [lia | exact Hnth | exact Hf].
    + exists ks. split; [exact Hsorted|]. split; [exact Hfrom'|].
      split; [exact Hlater|].
      intros k name0 body0 Hk Hnth Hf.
      destruct (Nat.eq_dec k i) as [->|Hne].
      * rewrite Nat.sub_diag in Hnth. injection Hnth as <-.
        now apply Hitem in Hf.
      * rewrite nth_error_later in Hnth by lia.
        apply (Hall k name0 body0); [lia | exact Hnth | exact Hf].
Qed.

(** X14. Baseline mode treats the watched directory entries in the order of
    the listing, and the entry at position [k] gets the request for its
    escaped name with the timestamp of turn [k].  It writes the local file
    of exactly those entries whose request is built without an error and
    answered with status 200 and a readable body, once for each, in the
    order of the entries, with the bytes of that body: an entry whose
    request cannot be built, whose fetch fails, whose status is another or
    whose body cannot be read is not written. *)
Theorem baseline_writes_only_fetched (w : World) (runningDir : string)
    (names : list string) (writes : list (string * string)) :
  Readdirnames w runningDir = Ok names ->
  fetchBaselines w runningDir = Some writes ->
  let watched := filter (selected w) names in
  exists ks,
    StronglySorted lt ks /\
    Forall2 (fun k write =>
               exists name body,
                 nth_error watched k = Some name /\
                 fetchedWith w k name body /\
                 write = (filepathJoin runningDir name, body))
            ks writes /\
    (forall k name body,
        nth_error watched k = Some name -> fetchedWith w k name body -> In k ks).
Proof.
  intros Hdir Hfetch watched. unfold fetchBaselines in Hfetch. rewrite Hdir in Hfetch.
  injection Hfetch as <-.
  unfold baselineFiles. rewrite baselineFiles_acc. cbn [app]. fold watched.
  destruct (baselineItems_fetched w runningDir watched 0)
    as (ks & Hsorted & _ & Hwrites & Hall).
  exists ks. split; [exact Hsorted|]. split.
  - revert Hwrites. apply Forall2_impl.
    intros k write (_ & name & body & Hnth & Hrest).
    exists name, body. now rewrite Nat.sub_0_r in Hnth.
  - intros k name body Hnth Hf.
    apply (Hall k name body); [lia | now rewrite Nat.sub_0_r | exact Hf].
Qed.

Lemma baseline_writes_only_fetched_witness :
  filter (selected Cases.halfGone) ["plan.pdf"; "stops.csv"; "notes.txt"] =
    ["plan.pdf"; "stops.csv"] /\
  fetchBaselines Cases.halfGone Sample.dir =
    Some [("/srv/baseline/stops.csv", "stop,time")] /\
  let watched := filter (selected Cases.halfGone) ["plan.pdf"; "stops.csv"; "notes.txt"] in
  exists ks,
    StronglySorted lt ks /\
    Forall2 (fun k write =>
               exists name body,
                 nth_error watched k = Some name /\
                 fetchedWith Cases.halfGone k name body /\
                 write = (filepathJoin Sample.dir name, body))
            ks [("/srv/baseline/stops.csv", "stop,time")] /\
    (forall k name body,
        nth_error watched k = Some name ->
        fetchedWith Cases.halfGone k name body -> In k ks).
Proof.
  split; [reflexivity|]. split; [reflexivity|].
  exact (baseline_writes_only_fetched Cases.halfGone Sample.dir
           ["plan.pdf"; "stops.csv"; "notes.txt"]
           [("/srv/baseline/stops.csv", "stop,time")] eq_refl eq_refl).
Defined.

(** ** Images whose format the recogniser does not read *)

Lemma Ext_plain (s : string) : hasDotOrSeparator s = false -> Ext s = EmptyString.
Proof.
  induction s as [|c s IH]; [reflexivity|].
  cbn [hasDotOrSeparator Ext]. intros H.
  apply orb_false_iff in H. destruct H as [H Hs].
  apply orb_false_iff in H. destruct H as [Hdot _].
  now rewrite Hs, Hdot.
Qed.

Lemma hasDotOrSeparator_app_sep (p s : string) :
  hasDotOrSeparator (p ++ String "/"%char s) = true.
Proof.
  induction p as [|c p IH]; cbn [append hasDotOrSeparator].
  - reflexivity.
  - rewrite IH. apply orb_true_r.
Qed.

Lemma Ext_after_separator (p name : string) : Ext (p ++ String "/"%char name) = Ext name.
Proof.
  induction p as [|c p IH]; cbn [append Ext].
  - destruct (hasDotOrSeparator name) eqn:E; [reflexivity|].
    simpl. symmetry. now apply Ext_plain.
  - now rewrite hasDotOrSeparator_app_sep.
Qed.

Lemma Ext_filepathJoin (dir name : string) : Ext (filepathJoin dir name) = Ext name.
Proof.
  unfold filepathJoin. destruct (HasSuffix dir "/") eqn:E.
  - destruct (HasSuffix_separator dir E) as [p ->].
    rewrite append_assoc. apply Ext_after_separator.
  - apply Ext_after_separator.
Qed.

(** X15. For a changed item whose extension reads [.avif] in lower case,
    whose local file is read and whose temporary file is opened, the
    recognised-text section of the report is the two lines saying that the
    format is not supported, whatever the bytes: no text is recognised and
    none is compared, while the metadata section is reconciled as for any
    image. *)
Theorem avif_text_section (w : World) (runningDir body ts name data : string) :
  ToLower w (Ext name) = ".avif" ->
  readFile w (filepathJoin runningDir name) = Ok data ->
  tempFile w name = Opened ->
  itemDiff w (filepathJoin runningDir name) body ts name =
    (("[" ++ ts ++ "] Image Diff for " ++ name ++ nl
       ++ hashLine (sha256Hex data) (sha256Hex body))
     ++ BuilderString
          (reconcile "EXIF" "EXIF" (valueOf (DecodeExif w data)) (valueOf (DecodeExif w body))
             (errorOf (DecodeExif w data)) (errorOf (DecodeExif w body)))
     ++ ("Local OCR Error: AVIF format not supported for OCR" ++ nl
         ++ "Remote OCR Error: AVIF format not supported for OCR" ++ nl))%string.
Proof.
  intros Hext Hread Htemp.
  unfold itemDiff. rewrite Hext. cbn [String.eqb Ascii.eqb Bool.eqb andb]. cbv iota.
  unfold extractImageData, extractImageDataFromBytes, extractOpened, extractExif.
  rewrite Ext_filepathJoin, Hext, Hread, Htemp.
  cbn [String.eqb Ascii.eqb Bool.eqb andb exifData ocrText exifErr ocrErr]. cbv iota.
  rewrite imageDiff_sections. unfold fileHash. rewrite Hread.
  cbn [valueOf]. reflexivity.
Qed.

Lemma avif_text_section_witness :
  itemDiff Cases.avifMap (filepathJoin Sample.dir "map.avif") "remote avif" Sample.ts "map.avif" =
    (("[" ++ Sample.ts ++ "] Image Diff for " ++ "map.avif" ++ nl
       ++ hashLine (sha256Hex "local avif") (sha256Hex "remote avif"))
     ++ BuilderString
          (reconcile "EXIF" "EXIF"
             (valueOf (DecodeExif Cases.avifMap "local avif"))
             (valueOf (DecodeExif Cases.avifMap "remote avif"))
             (errorOf (DecodeExif Cases.avifMap "local avif"))
             (errorOf (DecodeExif Cases.avifMap "remote avif")))
     ++ ("Local OCR Error: AVIF format not supported for OCR" ++ nl
         ++ "Remote OCR Error: AVIF format not supported for OCR" ++ nl))%string.
Proof.
  exact (avif_text_section Cases.avifMap Sample.dir "remote avif" Sample.ts "map.avif"
           "local avif" eq_refl eq_refl eq_refl).
Defined.

(** ** The interval typed at the prompt *)

(** X16. Whatever is typed, the interval is positive: it is the default
    of 60 minutes, or the number that [Atoi] reads in the trimmed line. *)
Theorem promptInterval_positive (intSize : Z) (line : string) :
  (0 < promptInterval intSize line)%Z /\
  (promptInterval intSize line = 60%Z \/
   Atoi intSize (TrimSpace line) = Some (promptInterval intSize line)).
Proof.
  unfold promptInterval, defaultMinutes.
  destruct (String.eqb (TrimSpace line) EmptyString); [split; [lia | now left]|].
  destruct (Atoi intSize (TrimSpace line)) as [v|]; [|split; [lia | now left]].
  destruct (0 <? v)%Z eqn:E; [|split; [lia | now left]].
  apply Z.ltb_lt in E. split; [exact E | now right].
Qed.

Lemma rev_acc_app (s acc : string) : rev_acc s acc = (rev s ++ acc)%string.
Proof.
  unfold rev. revert acc. induction s as [|c s IH]; intros acc; simpl; [reflexivity|].
  rewrite (IH (String c acc)), (IH (String c EmptyString)), append_assoc. reflexivity.
Qed.

Lemma rev_cons (c : ascii) (s : string) : rev (String c s) = (rev s ++ String c EmptyString)%string.
Proof. unfold rev at 1. simpl. apply rev_acc_app. Qed.

Lemma rev_app (a b : string) : rev (a ++ b) = (rev b ++ rev a)%string.
Proof.
  induction a as [|c a IH]; simpl.
  - now rewrite append_nil_r.
  - now rewrite !rev_cons, IH, append_assoc.
Qed.

Lemma rev_involutive (s : string) : rev (rev s) = s.
Proof.
  induction s as [|c s IH]; [reflexivity|].
  now rewrite rev_cons, rev_app, IH.
Qed.

Lemma allDigits_app (a b : string) : allDigits (a ++ b) = allDigits a && allDigits b.
Proof.
  induction a as [|c a IH]; simpl; [reflexivity|]. now rewrite IH, andb_assoc.
Qed.

Lemma allDigits_rev (s : string) : allDigits s = true -> allDigits (rev s) = true.
Proof.
  induction s as [|c s IH]; [reflexivity|]. simpl. intros H.
  apply andb_true_iff in H. destruct H as [Hc Hs].
  rewrite rev_cons, allDigits_app, (IH Hs). simpl. now rewrite Hc.
Qed.

(** No white-space rune starts, and none ends, with a decimal digit. *)
Lemma digit_starts_no_space (c : ascii) (rest : string) :
  isDigit c = true -> dropSpaceRune spaceRunes (String c rest) = None.
Proof.
  intros H.
  destruct c as [[] [] [] [] [] [] [] []]; cbv in H; try discriminate H; reflexivity.
Qed.

Lemma digit_ends_no_space (c : ascii) (rest : string) :
  isDigit c = true -> dropSpaceRune (map rev spaceRunes) (String c rest) = None.
Proof.
  intros H.
  destruct c as [[] [] [] [] [] [] [] []]; cbv in H; try discriminate H; reflexivity.
Qed.

Lemma trimLeftFuel_stops (runes : list string) (fuel : nat) (s : string) :
  dropSpaceRune runes s = None -> trimLeftFuel runes fuel s = s.
Proof. intros H. destruct fuel; simpl; [reflexivity | now rewrite H]. Qed.

Lemma digit_not_sign (c : ascii) :
  isDigit c = true -> Ascii.eqb c "-" = false /\ Ascii.eqb c "+" = false.
Proof.
  intros H.
  destruct c as [[] [] [] [] [] [] [] []]; cbv in H; try discriminate H; split; reflexivity.
Qed.

(** A line of digits closed by a line feed trims to the digits. *)
Lemma TrimSpace_digits_line (c : ascii) (ds : string) :
  allDigits (String c ds) = true ->
  TrimSpace (String c ds ++ nl) = String c ds.
Proof.
  intros Hall.
  assert (Hc : isDigit c = true) by (simpl in Hall; now apply andb_true_iff in Hall).
  unfold TrimSpace.
  assert (Hleft : TrimLeftSpace (String c ds ++ nl) = (String c ds ++ nl)%string).
  { unfold TrimLeftSpace. apply trimLeftFuel_stops.
    cbn [append]. now apply digit_starts_no_space. }
  rewrite Hleft. unfold TrimRightSpace.
  rewrite rev_app. change (rev nl) with nl.
  set (x := rev (String c ds)).
  assert (Hx : allDigits x = true) by (now apply allDigits_rev).
  assert (Hne : exists d y, x = String d y /\ isDigit d = true).
  { destruct x as [|d y] eqn:E.
    - assert (Hrev : rev x = String c ds) by apply rev_involutive.
      rewrite E in Hrev. discriminate.
    - exists d, y. split; [reflexivity|]. simpl in Hx. now apply andb_true_iff in Hx. }
  destruct Hne as (d & y & Hxy & Hd).
  rewrite length_append. simpl (String.length nl).
  replace (String.length (String c ds) + 1) with (S (String.length (String c ds))) by lia.
  cbn [trimLeftFuel].
  assert (Hdrop : dropSpaceRune (map rev spaceRunes) (nl ++ x) = Some x).
  { cbn. rewrite Nat.sub_0_r. now rewrite substring_0_all. }
  rewrite Hdrop, trimLeftFuel_stops.
  - apply rev_involutive.
  - rewrite Hxy. now apply digit_ends_no_space.
Qed.

Lemma digitsValue_string_of_uint (d : Decimal.uint) :
  forall acc,
    digitsValue (NilEmpty.string_of_uint d) (Z.of_nat acc) =
    Some (Z.of_nat (Nat.of_uint_acc d acc)).
Proof.
  induction d as [|d IH|d IH|d IH|d IH|d IH|d IH|d IH|d IH|d IH|d IH]; intros acc;
    [reflexivity|..];
    cbn [NilEmpty.string_of_uint digitsValue Nat.of_uint_acc];
    change (isDigit _) with true; cbv iota;
    rewrite Nat.tail_mul_spec, <- IH; f_equal;
    match goal with
    | |- context [Z.of_nat (nat_of_ascii ?c)] =>
        let v := eval vm_compute in (Z.of_nat (nat_of_ascii c)) in
        change (Z.of_nat (nat_of_ascii c)) with v
    end; lia.
Qed.

Lemma allDigits_string_of_uint (d : Decimal.uint) :
  allDigits (NilEmpty.string_of_uint d) = true.
Proof.
  induction d as [|d IH|d IH|d IH|d IH|d IH|d IH|d IH|d IH|d IH|d IH];
    [reflexivity|..]; cbn [NilEmpty.string_of_uint allDigits];
    rewrite IH; reflexivity.
Qed.

(** [Itoa] writes digits that read back as the number. *)
Lemma Itoa_digits (n : nat) :
  exists c ds,
    Itoa n = String c ds /\ allDigits (String c ds) = true /\
    digitsValue (Itoa n) 0 = Some (Z.of_nat n).
Proof.
  unfold Itoa.
  assert (Hval : digitsValue (NilEmpty.string_of_uint (Nat.to_uint n)) 0 =
                 Some (Z.of_nat n)).
  { change 0%Z with (Z.of_nat 0). rewrite digitsValue_string_of_uint.
    change (Nat.of_uint_acc (Nat.to_uint n) 0) with (Nat.of_uint (Nat.to_uint n)).
    now rewrite Unsigned.of_to. }
  assert (Hall := allDigits_string_of_uint (Nat.to_uint n)).
  destruct (Nat.to_uint n) as [|d|d|d|d|d|d|d|d|d|d] eqn:E;
    cbn [NilZero.string_of_uint NilEmpty.string_of_uint] in *;
    eexists; eexists; (split; [reflexivity|]); (split; [|try exact Hval]);
    try exact Hall.
Qed.

(** X17. A positive number within the range of [int], typed in decimal and
    closed by a line feed, is the interval. *)
Theorem promptInterval_reads_number (intSize : Z) (n : nat) :
  0 < n -> (Z.of_nat n <= 2 ^ (intSize - 1) - 1)%Z ->
  promptInterval intSize (Itoa n ++ nl) = Z.of_nat n.
Proof.
  intros Hpos Hmax.
  destruct (Itoa_digits n) as (c & ds & Hs & Hall & Hval).
  unfold promptInterval. rewrite Hs, (TrimSpace_digits_line c ds Hall).
  cbn [String.eqb]. unfold Atoi.
  assert (Hc : isDigit c = true) by (simpl in Hall; now apply andb_true_iff in Hall).
  destruct (digit_not_sign c Hc) as [Hminus Hplus]. rewrite Hminus, Hplus.
  unfold atoiDigits. rewrite <- Hs, Hval.
  replace ((- 2 ^ (intSize - 1) <=? Z.of_nat n)%Z) with true
    by (symmetry; apply Z.leb_le; lia).
  replace ((Z.of_nat n <=? 2 ^ (intSize - 1) - 1)%Z) with true
    by (symmetry; apply Z.leb_le; lia).
  cbn [andb].
  replace ((0 <? Z.of_nat n)%Z) with true by (symmetry; apply Z.ltb_lt; lia).
  reflexivity.
Qed.

Lemma promptInterval_reads_number_witness :
  promptInterval 64 (Itoa 90 ++ nl) = Z.of_nat 90.
Proof.
  apply (promptInterval_reads_number 64 90); [lia|].
  vm_compute. discriminate.
Defined.

(** ** What a cycle is sure to log *)







